(** * Kinematic position models of the PythonSimulations scripts

    Shallow embedding of the position functions and of the per-frame
    [update] callbacks of the mechanism scripts (ball screw, cylindrical
    cams, orthogonal linkage), and the properties stated about them.

    Numbers: the scripts compute with Python floats; here they are
    idealised as real numbers ([R]), [np.pi] is [PI], [np.sin]/[np.cos]
    are [sin]/[cos].  Rounding is outside the model. *)

From Stdlib Require Import Reals Lra Lia List String Bool Arith.
Import ListNotations.
Open Scope R_scope.

(** ** The interpreter-level store and its monad

    A script's functions have no [global] statement, so the only program
    state they can change is the content of mutable objects reached
    through module-level names: the trajectory lists and the matplotlib
    line artists.  Both are kept in a store indexed by the variable name
    of the script. *)
Module Py.

Record Line : Type := mkLine {
  xdata : list R;
  ydata : list R;
  zdata : list R
}.

Record Store : Type := mkStore {
  artists : string -> Line;      (* matplotlib line objects, by name *)
  buffers : string -> list R     (* Python lists of floats, by name *)
}.

Definition empty_line : Line := mkLine [] [] [].

(** Every list is created as [[]] at module level. *)
Definition fresh (a : string -> Line) : Store := mkStore a (fun _ => []).

Definition upd {A : Type} (m : string -> A) (k : string) (v : A)
  : string -> A :=
  fun k' => if String.eqb k k' then v else m k'.

(** Computations: a store transformer that may raise (IndexError). *)
Definition M (A : Type) : Type := Store -> option (A * Store).

Definition ret {A : Type} (a : A) : M A := fun s => Some (a, s).

Definition raise {A : Type} : M A := fun _ => None.

Definition bind {A B : Type} (m : M A) (k : A -> M B) : M B :=
  fun s => match m s with
           | Some (a, s') => k a s'
           | None => None
           end.

(** [l[i]] for a non-negative index. *)
Definition index (l : list R) (i : nat) : M R :=
  match nth_error l i with
  | Some v => ret v
  | None => raise
  end.

(** [name.append(v)] *)
Definition append (name : string) (v : R) : M unit :=
  fun s => Some (tt, mkStore (artists s)
                             (upd (buffers s) name (buffers s name ++ [v]))).

(** Reading the current content of the list bound to [name]. *)
Definition content (name : string) : M (list R) :=
  fun s => Some (buffers s name, s).

(** [name.set_data(xs, ys)] *)
Definition set_data (name : string) (xs ys : list R) : M unit :=
  fun s => Some (tt, mkStore
     (upd (artists s) name (mkLine xs ys (zdata (artists s name))))
     (buffers s)).

(** [name.set_3d_properties(zs)] *)
Definition set_3d_properties (name : string) (zs : list R) : M unit :=
  fun s => Some (tt, mkStore
     (upd (artists s) name
          (mkLine (xdata (artists s name)) (ydata (artists s name)) zs))
     (buffers s)).

(** [np.arange(start, stop, step)], given its number [n] of samples. *)
Definition arange (start step : R) (n : nat) : list R :=
  map (fun k => start + INR k * step) (seq 0 n).

(** [FuncAnimation] calls the callback once per frame, in order. *)
Fixpoint run_frames (update : nat -> M unit) (frames : list nat) : M unit :=
  match frames with
  | [] => ret tt
  | i :: rest => bind (update i) (fun _ => run_frames update rest)
  end.

(** The value a computation returns, and the store it leaves. *)
Definition value {A : Type} (m : M A) (s : Store) : option A :=
  option_map fst (m s).

Definition final {A : Type} (m : M A) (s : Store) : option Store :=
  option_map snd (m s).

(** [name.set_ydata(ys)] *)
Definition set_ydata (name : string) (ys : list R) : M unit :=
  fun s => Some (tt, mkStore
     (upd (artists s) name
          (mkLine (xdata (artists s name)) ys (zdata (artists s name))))
     (buffers s)).

(** [np.linspace(start, stop, num)]: [num] evenly spaced samples, both
    ends included. *)
Definition linspace (start stop : R) (num : nat) : list R :=
  map (fun k => start + INR k * ((stop - start) / INR (num - 1))) (seq 0 num).

(** [np.meshgrid(xs, ys)]: one row per element of [ys]. *)
Definition meshgrid (xs ys : list R) : list (list R) * list (list R) :=
  (map (fun _ => xs) ys, map (fun y => map (fun _ => y) xs) ys).

End Py.

Import Py.

Notation "x <- c ;; k" := (bind c (fun x => k))
  (at level 61, c at next level, right associativity).
Notation "c ;;; k" := (bind c (fun _ => k))
  (at level 61, right associativity).

(** ** Ballscrew.py: nut driven by a rotating screw *)
Module Ballscrew.

Definition screw_radius : R := 0.5.
Definition screw_pitch : R := 2.5.
Definition screw_turns : R := 2.
Definition screw_height : R := screw_turns * screw_pitch.
Definition angular_velocity : R := 2 * PI / 10.
Definition screw_offset_x : R := 0.
Definition follower_offset_x : R := 2.5.
Definition t_end : R := 10.
Definition dt : R := 0.05.
Definition frames : nat := 200.
Definition t : list R := arange 0 dt frames.

Definition follower_position (angle : R) : M R :=
  ret (screw_pitch * (angle / (2 * PI))).

Definition screw_x (angle : R) : R := screw_radius * cos angle + screw_offset_x.
Definition screw_y (angle : R) : R := screw_radius * sin angle.

Definition update (i : nat) : M unit :=
  ti <- index t i ;;
  let angle := angular_velocity * ti in
  let screw_x := screw_x angle in
  let screw_y := screw_y angle in
  screw_z <- follower_position angle ;;
  (if Nat.eqb i 0
   then set_data "rod" [follower_offset_x; follower_offset_x] [0; 0] ;;;
        set_3d_properties "rod" [screw_z; 0]
   else set_data "rod" [follower_offset_x; follower_offset_x] [0; 0] ;;;
        set_3d_properties "rod" [screw_z; 0]) ;;;
  set_data "screw" [0; screw_x] [0; screw_y] ;;;
  set_3d_properties "screw" [screw_z; screw_z] ;;;
  set_data "follower" [follower_offset_x] [0] ;;;
  set_3d_properties "follower" [screw_z] ;;;
  set_data "follower_line" [screw_x; follower_offset_x] [screw_y; 0] ;;;
  set_3d_properties "follower_line" [screw_z; screw_z] ;;;
  append "screw_trajectory_x" screw_x ;;;
  append "screw_trajectory_y" screw_y ;;;
  append "follower_trajectory_z" screw_z ;;;
  xs <- content "screw_trajectory_x" ;;
  ys <- content "screw_trajectory_y" ;;
  set_data "screw_traj_plot" xs ys ;;;
  zs <- content "follower_trajectory_z" ;;
  set_data "follower_traj_plot" (firstn (i + 1) t) (firstn (i + 1) zs).


(** The helix drawn on the screw. *)
Definition theta : list R := linspace 0 (2 * PI * screw_turns) 1000.
Definition screw_profile_x : list R :=
  map (fun th => screw_radius * cos th + screw_offset_x) theta.
Definition screw_profile_y : list R :=
  map (fun th => screw_radius * sin th) theta.
Definition screw_profile_z : list R :=
  map (fun th => screw_pitch * (th / (2 * PI))) theta.

(** [create_cylinder(ax, x, y, z, radius, height)]: the surface handed to
    [ax.plot_surface] is represented by its three coordinate grids.  The
    parameter [z] is rebound by the first statement of the body. *)
Definition create_cylinder (x y z radius height : R)
  : list (list R) * list (list R) * list (list R) :=
  let z := linspace 0 height 100 in
  let theta := linspace 0 (2 * PI) 100 in
  let '(theta_grid, z_grid) := meshgrid theta z in
  let x_grid := map (map (fun th => radius * cos th + x)) theta_grid in
  let y_grid := map (map (fun th => radius * sin th + y)) theta_grid in
  (x_grid, y_grid, z_grid).

End Ballscrew.

(** ** BallscrewRotTrans.py: half a turn of dwell, then a timed rise *)
Module BallscrewRotTrans.

Definition screw_radius : R := 0.5.
Definition screw_pitch : R := 2.5.
Definition screw_turns : R := 1.
Definition screw_height : R := screw_turns * screw_pitch.
Definition angular_velocity : R := 2 * PI / 10.
Definition screw_offset_x : R := 0.
Definition follower_offset_x : R := 2.5.
Definition t_end : R := 10.
Definition dt : R := 0.05.
Definition frames : nat := 200.
Definition t : list R := arange 0 dt frames.

Definition follower_position (angle : R) : M R :=
  if Rle_dec angle PI then ret 0 else ret screw_pitch.

Definition screw_x (angle : R) : R := screw_radius * cos angle + screw_offset_x.
Definition screw_y (angle : R) : R := screw_radius * sin angle.

(** The conditional of [update] that assigns [follower_z]. *)
Definition follower_z (i : nat) (angle : R) : M R :=
  if Rle_dec angle PI then ret 0
  else
    let translation_time := t_end - (t_end / 2) in
    ti <- index t i ;;
    let elapsed_time := ti - (t_end / 2) in
    if Rlt_dec elapsed_time translation_time
    then ret ((elapsed_time / translation_time) * screw_pitch)
    else ret screw_pitch.

Definition update (i : nat) : M unit :=
  ti <- index t i ;;
  let angle := angular_velocity * ti in
  let screw_x := screw_x angle in
  let screw_y := screw_y angle in
  follower_z <- follower_z i angle ;;
  (if Nat.eqb i 0
   then set_data "rod" [follower_offset_x; follower_offset_x] [0; 0] ;;;
        set_3d_properties "rod" [follower_z; 0]
   else set_data "rod" [follower_offset_x; follower_offset_x] [0; 0] ;;;
        set_3d_properties "rod" [follower_z; 0]) ;;;
  set_data "screw" [0; screw_x] [0; screw_y] ;;;
  set_3d_properties "screw" [follower_z; follower_z] ;;;
  set_data "follower" [follower_offset_x] [0] ;;;
  set_3d_properties "follower" [follower_z] ;;;
  set_data "follower_line" [screw_x; follower_offset_x] [screw_y; 0] ;;;
  set_3d_properties "follower_line" [follower_z; follower_z] ;;;
  append "screw_trajectory_x" screw_x ;;;
  append "screw_trajectory_y" screw_y ;;;
  append "follower_trajectory_z" follower_z ;;;
  xs <- content "screw_trajectory_x" ;;
  ys <- content "screw_trajectory_y" ;;
  set_data "screw_traj_plot" xs ys ;;;
  zs <- content "follower_trajectory_z" ;;
  set_data "follower_traj_plot" (firstn (i + 1) t) (firstn (i + 1) zs).

End BallscrewRotTrans.

(** ** CylindricalCamOrthogonal.py: sinusoidal cam *)
Module CylindricalCamOrthogonal.

Definition cam_radius : R := 2.
Definition amplitude : R := 1.
Definition frequency : R := 1.
Definition angular_velocity : R := 2 * PI * frequency.
Definition t_end : R := 10.
Definition dt : R := 0.05.
Definition frames : nat := 200.
Definition t : list R := arange 0 dt frames.

Definition follower_position (t : R) : M R :=
  ret (amplitude * sin (angular_velocity * t)).

Definition update (i : nat) : M unit :=
  ti <- index t i ;;
  let angle := angular_velocity * ti in
  t1 <- index t i ;;
  f1 <- follower_position t1 ;;
  let cam_x := (cam_radius + f1) * cos angle in
  t2 <- index t i ;;
  f2 <- follower_position t2 ;;
  let cam_y := (cam_radius + f2) * sin angle in
  t3 <- index t i ;;
  follower_z <- follower_position t3 ;;
  set_data "cam" [0; cam_x] [0; cam_y] ;;;
  set_3d_properties "cam" [0; 0] ;;;
  set_data "follower" [0] [0] ;;;
  set_3d_properties "follower" [follower_z] ;;;
  set_data "follower_line" [cam_x; 0] [cam_y; 0] ;;;
  set_3d_properties "follower_line" [0; follower_z] ;;;
  append "cam_trajectory_x" cam_x ;;;
  append "cam_trajectory_y" cam_y ;;;
  append "follower_trajectory_z" follower_z ;;;
  xs <- content "cam_trajectory_x" ;;
  ys <- content "cam_trajectory_y" ;;
  set_data "cam_traj_plot" xs ys ;;;
  zs <- content "follower_trajectory_z" ;;
  set_data "follower_traj_plot" (firstn (i + 1) t) (firstn (i + 1) zs).

End CylindricalCamOrthogonal.

(** ** CylindricalCamPlanar.py: helical cam, follower on a parallel axis *)
Module CylindricalCamPlanar.

Definition cam_radius : R := 2.
Definition helix_pitch : R := 1.
Definition turns : R := 3.
Definition cam_height : R := turns * helix_pitch.
Definition angular_velocity : R := 2 * PI / 5.
Definition cam_offset_x : R := 0.
Definition follower_offset_x : R := 3.
Definition t_end : R := 10.
Definition dt : R := 0.05.
Definition frames : nat := 200.
Definition t : list R := arange 0 dt frames.

Definition follower_position (angle : R) : M R :=
  ret (helix_pitch * (angle / (2 * PI))).

Definition cam_x (angle : R) : R := cam_radius * cos angle + cam_offset_x.
Definition cam_y (angle : R) : R := cam_radius * sin angle.

Definition update (i : nat) : M unit :=
  ti <- index t i ;;
  let angle := angular_velocity * ti in
  let cam_x := cam_x angle in
  let cam_y := cam_y angle in
  cam_z <- follower_position angle ;;
  follower_z <- follower_position angle ;;
  set_data "cam" [0; cam_x] [0; cam_y] ;;;
  set_3d_properties "cam" [cam_z; cam_z] ;;;
  set_data "follower" [follower_offset_x] [0] ;;;
  set_3d_properties "follower" [follower_z] ;;;
  set_data "follower_line" [cam_x; follower_offset_x] [cam_y; 0] ;;;
  set_3d_properties "follower_line" [cam_z; follower_z] ;;;
  append "cam_trajectory_x" cam_x ;;;
  append "cam_trajectory_y" cam_y ;;;
  append "follower_trajectory_z" follower_z ;;;
  xs <- content "cam_trajectory_x" ;;
  ys <- content "cam_trajectory_y" ;;
  set_data "cam_traj_plot" xs ys ;;;
  zs <- content "follower_trajectory_z" ;;
  set_data "follower_traj_plot" (firstn (i + 1) t) (firstn (i + 1) zs).

End CylindricalCamPlanar.

(** ** CylindricalCamRotTrans.py: half a turn of dwell, then a helical rise *)
Module CylindricalCamRotTrans.

Definition cam_radius : R := 1.0.
Definition translation_stroke : R := 2.5.
Definition helix_turns : R := 1.
Definition helix_pitch : R := translation_stroke / (2 * PI).
Definition cam_height : R := helix_turns * helix_pitch.
Definition angular_velocity : R := 2 * PI / 10.
Definition cam_offset_x : R := 0.
Definition follower_offset_x : R := 2.5.
Definition t_end : R := 10.
Definition dt : R := 0.05.
Definition frames : nat := 200.
Definition t : list R := arange 0 dt frames.

Definition follower_position (angle : R) : M R :=
  if Rle_dec angle PI
  then ret 0
  else ret (helix_pitch * ((angle - PI) / (2 * PI))).

Definition cam_x (angle : R) : R := cam_radius * cos angle + cam_offset_x.
Definition cam_y (angle : R) : R := cam_radius * sin angle.

Definition update (i : nat) : M unit :=
  ti <- index t i ;;
  let angle := angular_velocity * ti in
  let cam_x := cam_x angle in
  let cam_y := cam_y angle in
  let cam_z := 0 in
  follower_z <- follower_position angle ;;
  (if Nat.eqb i 0
   then set_data "rod" [follower_offset_x; follower_offset_x] [0; 0] ;;;
        set_3d_properties "rod" [follower_z; 0]
   else set_data "rod" [follower_offset_x; follower_offset_x] [0; 0] ;;;
        set_3d_properties "rod" [follower_z; 0]) ;;;
  set_data "cam" [0; cam_x] [0; cam_y] ;;;
  set_3d_properties "cam" [cam_z; cam_z] ;;;
  set_data "follower" [follower_offset_x] [0] ;;;
  set_3d_properties "follower" [follower_z] ;;;
  set_data "follower_line" [cam_x; follower_offset_x] [cam_y; 0] ;;;
  set_3d_properties "follower_line" [cam_z; follower_z] ;;;
  append "cam_trajectory_x" cam_x ;;;
  append "cam_trajectory_y" cam_y ;;;
  append "follower_trajectory_z" follower_z ;;;
  xs <- content "cam_trajectory_x" ;;
  ys <- content "cam_trajectory_y" ;;
  set_data "cam_traj_plot" xs ys ;;;
  zs <- content "follower_trajectory_z" ;;
  set_data "follower_traj_plot" (firstn (i + 1) t) (firstn (i + 1) zs).


(** The helix drawn on the cam. *)
Definition theta : list R := linspace 0 (2 * PI * helix_turns) 1000.
Definition cam_profile_x : list R :=
  map (fun th => cam_radius * cos th + cam_offset_x) theta.
Definition cam_profile_y : list R :=
  map (fun th => cam_radius * sin th) theta.
(** [np.where(theta <= np.pi, 0, ...)] *)
Definition cam_profile_z : list R :=
  map (fun th => if Rle_dec th PI then 0
                 else helix_pitch * ((th - PI) / (2 * PI))) theta.

End CylindricalCamRotTrans.

(** ** OrthogonalLinkage.py: two revolute links *)
Module OrthogonalLinkage.

Definition linkage_length_A : R := 1.0.
Definition linkage_length_B : R := 1.0.

(** [np.radians] *)
Definition radians (deg : R) : R := deg * PI / 180.

(** [np.arange(0, 360, 2)] *)
Definition frames : list R := arange 0 2 180.

Definition update (frame : R) : M unit :=
  let theta_A := radians frame in
  let theta_B := radians (frame * 1.5) in
  let A_x := linkage_length_A * cos theta_A in
  let A_y := linkage_length_A * sin theta_A in
  let A_z := 0 in
  let B_x := linkage_length_B * cos theta_B in
  let B_y := 0 in
  let B_z := linkage_length_B * sin theta_B in
  set_data "line_A" [0; A_x] [0; A_y] ;;;
  set_3d_properties "line_A" [0; A_z] ;;;
  set_data "line_B" [A_x; A_x + B_x] [A_y; A_y + B_y] ;;;
  set_3d_properties "line_B" [0; B_z].

Definition init : M unit :=
  set_data "line_A" [] [] ;;;
  set_3d_properties "line_A" [] ;;;
  set_data "line_B" [] [] ;;;
  set_3d_properties "line_B" [].

(** The [k]-th plotted point of a line artist. *)
Definition point (l : Line) (k : nat) : R * R * R :=
  (nth k (xdata l) 0, nth k (ydata l) 0, nth k (zdata l) 0).

Definition dist (p q : R * R * R) : R :=
  let '(px, py, pz) := p in
  let '(qx, qy, qz) := q in
  sqrt ((qx - px) * (qx - px) + (qy - py) * (qy - py) + (qz - pz) * (qz - pz)).

End OrthogonalLinkage.

(** ** BallscrewFlexLink.py: a follower swung through a quarter turn,
    then slid along the screw *)
Module BallscrewFlexLink.

Definition pivot_x : R := 1.
Definition pivot_y : R := 2.
Definition screw_x : list R := [1.5; 1.5].
Definition screw_y : list R := [0; 4].
Definition follower_x : R := 2.5.
Definition linkage1_x : list R := [1.5; pivot_x].
Definition linkage2_x : list R := [pivot_x; follower_x].

(** The five artists as the [ax.plot] calls at module level create them. *)
Definition initial : Store :=
  mkStore
    (upd (upd (upd (upd (upd (fun _ => empty_line)
       "pivot_point" (mkLine [pivot_x] [pivot_y] [0]))
       "screw_line" (mkLine screw_x screw_y [0; 0]))
       "follower_line" (mkLine [follower_x; follower_x] [2; 2] [0; 0]))
       "linkage1_line" (mkLine linkage1_x [2; pivot_y] [0; 0]))
       "linkage2_line" (mkLine linkage2_x [pivot_y; 2] [0; 0]))
    (fun _ => []).

(** [np.radians] *)
Definition radians (deg : R) : R := deg * PI / 180.

Definition update (frame : R) : M unit :=
  let angle := radians (frame * 90 / 100) in
  let follower_y_rotated := pivot_y + sin angle in
  let follower_z_rotated := cos angle in
  set_data "follower_line" [follower_x; follower_x]
           [follower_y_rotated; follower_y_rotated] ;;;
  set_3d_properties "follower_line" [follower_z_rotated; follower_z_rotated] ;;;
  set_ydata "linkage1_line" [2; pivot_y] ;;;
  set_data "linkage2_line" [pivot_x; follower_x] [pivot_y; follower_y_rotated] ;;;
  set_3d_properties "linkage2_line" [0; follower_z_rotated] ;;;
  if Rge_dec frame 100
  then
    let translation_frame := frame - 100 in
    let translation_height := 4 * (translation_frame / 100) in
    set_data "follower_line" [follower_x; follower_x]
             [translation_height; translation_height] ;;;
    set_3d_properties "follower_line" [0; 0] ;;;
    set_data "linkage2_line" [pivot_x; follower_x] [pivot_y; translation_height] ;;;
    set_3d_properties "linkage2_line" [0; 0]
  else ret tt.

End BallscrewFlexLink.

(** ** Predicates and closed forms used in the statements *)

(** [wp m Q s]: run from [s], [m] returns normally and [Q] holds of its
    result and final store. *)
Definition wp {A : Type} (m : M A) (Q : A -> Store -> Prop) (s : Store) : Prop :=
  match m s with
  | Some (a, s') => Q a s'
  | None => False
  end.

(** A function of the script is a pure call when, whatever the store,
    it returns normally, its result depends on the argument only, and
    it leaves the store as it found it. *)
Definition pure_call {A B : Type} (f : A -> M B) : Prop :=
  forall (a : A) (s1 s2 : Store),
    exists v : B, f a s1 = Some (v, s1) /\ f a s2 = Some (v, s2).

(** What one frame does to the three trajectory lists. *)
Definition pushes (nx ny nz : string) (x y z : R) (s s' : Store) : Prop :=
  buffers s' nx = (buffers s nx ++ [x])%list /\
  buffers s' ny = (buffers s ny ++ [y])%list /\
  buffers s' nz = (buffers s nz ++ [z])%list.

(** What frames [a .. a+N-1] do to them. *)
Definition extended (nx ny nz : string) (px py pz : nat -> R)
           (a N : nat) (s s' : Store) : Prop :=
  buffers s' nx = (buffers s nx ++ map px (seq a N))%list /\
  buffers s' ny = (buffers s ny ++ map py (seq a N))%list /\
  buffers s' nz = (buffers s nz ++ map pz (seq a N))%list.

(** The values of the locals [cam_x], [cam_y] of
    [CylindricalCamOrthogonal.update] when [t[i]] is [ti]. *)
Definition orthogonal_cam_x (ti : R) : R :=
  (CylindricalCamOrthogonal.cam_radius +
   CylindricalCamOrthogonal.amplitude *
     sin (CylindricalCamOrthogonal.angular_velocity * ti)) *
  cos (CylindricalCamOrthogonal.angular_velocity * ti).

Definition orthogonal_cam_y (ti : R) : R :=
  (CylindricalCamOrthogonal.cam_radius +
   CylindricalCamOrthogonal.amplitude *
     sin (CylindricalCamOrthogonal.angular_velocity * ti)) *
  sin (CylindricalCamOrthogonal.angular_velocity * ti).

(** Frame times of BallscrewRotTrans and the height reached at each. *)
Definition rise_time (i : nat) : R := 0 + INR i * BallscrewRotTrans.dt.

Definition rise (i : nat) : R := Rmax 0 ((rise_time i - 5) / 2).

(** The list bound to [name] keeps its content and gains [N] entries. *)
Definition grows_by (name : string) (N : nat) (s s' : Store) : Prop :=
  exists more : list R,
    List.length more = N /\ buffers s' name = (buffers s name ++ more)%list.

(** Nothing outside the named line artists and the named lists differs
    between [s] and [s']. *)
Definition only_touches (lines lists : list string) (s s' : Store) : Prop :=
  (forall n : string, ~ In n lines -> artists s' n = artists s n) /\
  (forall n : string, ~ In n lists -> buffers s' n = buffers s n).

(** Entry [(j, k)] of a grid stored row by row. *)
Definition entry (g : list (list R)) (j k : nat) : option R :=
  match nth_error g j with
  | Some row => nth_error row k
  | None => None
  end.

(** ** Facts about the store operations *)
Section StoreFacts.

Lemma arange_nth (start step : R) (n i : nat) :
  (i < n)%nat -> nth_error (arange start step n) i = Some (start + INR i * step).
Proof.
  intros Hi. unfold arange.
  rewrite nth_error_map, nth_error_seq.
  apply Nat.ltb_lt in Hi. rewrite Hi. reflexivity.
Qed.

Lemma arange_length (start step : R) (n : nat) :
  List.length (arange start step n) = n.
Proof. unfold arange. now rewrite length_map, length_seq. Qed.

(** [np.arange(0, t_end, dt)] has 200 samples: sample 199 is before
    [t_end], sample 200 would be [t_end] itself. *)
Lemma arange_stops_at_t_end :
  0 + INR 199 * Ballscrew.dt < Ballscrew.t_end /\
  0 + INR Ballscrew.frames * Ballscrew.dt = Ballscrew.t_end.
Proof.
  unfold Ballscrew.dt, Ballscrew.t_end, Ballscrew.frames.
  rewrite !INR_IZR_INZ. simpl. lra.
Qed.

Lemma index_arange (start step : R) (n i : nat) (s : Store) :
  (i < n)%nat -> index (arange start step n) i s = Some (start + INR i * step, s).
Proof. intros Hi. unfold index. now rewrite arange_nth. Qed.

Lemma index_arange_out (start step : R) (n i : nat) (s : Store) :
  (n <= i)%nat -> index (arange start step n) i s = None.
Proof.
  intros Hi. unfold index.
  assert (H : nth_error (arange start step n) i = None).
  { apply nth_error_None. now rewrite arange_length. }
  now rewrite H.
Qed.

End StoreFacts.


(** ** Rules of the weakest precondition

    The rules for the artist methods only record that the lists are
    untouched, which is all the trajectory properties need. *)
Section WP.

Lemma wp_elim {A : Type} (m : M A) (Q : A -> Store -> Prop) (s : Store) :
  wp m Q s -> exists a s', m s = Some (a, s') /\ Q a s'.
Proof.
  unfold wp. destruct (m s) as [[a s']|]; [|contradiction].
  intros HQ. now exists a, s'.
Qed.

Lemma wp_intro {A : Type} (m : M A) (Q : A -> Store -> Prop) (s : Store) a s' :
  m s = Some (a, s') -> Q a s' -> wp m Q s.
Proof. unfold wp. now intros ->. Qed.

Lemma wp_mono {A : Type} (m : M A) (P Q : A -> Store -> Prop) (s : Store) :
  (forall a s', P a s' -> Q a s') -> wp m P s -> wp m Q s.
Proof.
  unfold wp. destruct (m s) as [[a s']|]; auto.
Qed.

Lemma wp_ret {A : Type} (a : A) (Q : A -> Store -> Prop) (s : Store) :
  Q a s -> wp (ret a) Q s.
Proof. exact (fun H => H). Qed.

Lemma wp_bind {A B : Type} (m : M A) (k : A -> M B)
      (Q : B -> Store -> Prop) (s : Store) :
  wp m (fun a s' => wp (k a) Q s') s -> wp (bind m k) Q s.
Proof.
  unfold wp, bind. destruct (m s) as [[a s']|]; auto.
Qed.

Lemma wp_index_arange (start step : R) (n i : nat)
      (Q : R -> Store -> Prop) (s : Store) :
  (i < n)%nat -> Q (start + INR i * step) s ->
  wp (index (arange start step n) i) Q s.
Proof.
  intros Hi HQ. unfold wp. now rewrite index_arange.
Qed.

Lemma wp_set_data (name : string) (xs ys : list R)
      (Q : unit -> Store -> Prop) (s : Store) :
  (forall s', buffers s' = buffers s -> Q tt s') ->
  wp (set_data name xs ys) Q s.
Proof. intros HQ. apply HQ. reflexivity. Qed.

Lemma wp_set_3d_properties (name : string) (zs : list R)
      (Q : unit -> Store -> Prop) (s : Store) :
  (forall s', buffers s' = buffers s -> Q tt s') ->
  wp (set_3d_properties name zs) Q s.
Proof. intros HQ. apply HQ. reflexivity. Qed.

Lemma wp_append (name : string) (v : R)
      (Q : unit -> Store -> Prop) (s : Store) :
  (forall s', buffers s' = upd (buffers s) name (buffers s name ++ [v])%list ->
              Q tt s') ->
  wp (append name v) Q s.
Proof. intros HQ. apply HQ. reflexivity. Qed.

Lemma wp_content (name : string) (Q : list R -> Store -> Prop) (s : Store) :
  Q (buffers s name) s -> wp (content name) Q s.
Proof. exact (fun H => H). Qed.

Lemma upd_same {A : Type} (m : string -> A) (k : string) (v : A) :
  upd m k v k = v.
Proof. unfold upd. now rewrite String.eqb_refl. Qed.

Lemma upd_other {A : Type} (m : string -> A) (k k' : string) (v : A) :
  String.eqb k k' = false -> upd m k v k' = m k'.
Proof. unfold upd. now intros ->. Qed.

End WP.

(** One symbolic step through a script body. *)
Ltac wp_step :=
  lazymatch goal with
  | |- wp (bind _ _) _ _ => apply wp_bind
  | |- wp (ret _) _ _ => apply wp_ret
  | |- wp (set_data _ _ _) _ _ =>
      apply wp_set_data; let s := fresh "s" in let H := fresh "Hb" in intros s H
  | |- wp (set_3d_properties _ _) _ _ =>
      apply wp_set_3d_properties;
      let s := fresh "s" in let H := fresh "Hb" in intros s H
  | |- wp (append _ _) _ _ =>
      apply wp_append; let s := fresh "s" in let H := fresh "Hb" in intros s H
  | |- wp (content _) _ _ => apply wp_content
  | |- wp (if Nat.eqb ?i 0 then _ else _) _ _ => destruct (Nat.eqb i 0)
  end.

(** Looking a name up in a store after a sequence of list updates. *)
Ltac buffers_norm :=
  repeat match goal with
         | H : buffers _ = _ |- _ => rewrite H; clear H
         end;
  repeat first [ rewrite upd_same
               | rewrite upd_other by reflexivity ].

(** ** Running the animation: the lists after frames [a .. a+N-1] *)
Section Trajectory.

Variable update : nat -> M unit.
Variable n : nat.
Variables nx ny nz : string.
Variables px py pz : nat -> R.

Hypothesis update_pushes :
  forall (i : nat) (s : Store), (i < n)%nat ->
    wp (update i) (fun _ => pushes nx ny nz (px i) (py i) (pz i) s) s.

Lemma run_frames_extends (N : nat) :
  forall (a : nat) (s : Store), (a + N <= n)%nat ->
    wp (run_frames update (seq a N))
       (fun _ => extended nx ny nz px py pz a N s) s.
Proof.
  induction N as [|N IH]; intros a s Hle; simpl.
  - apply wp_ret. unfold extended. simpl. now rewrite !app_nil_r.
  - apply wp_bind.
    apply (wp_mono _ (fun _ => pushes nx ny nz (px a) (py a) (pz a) s)).
    2: apply update_pushes; lia.
    intros _ s1 (Hx & Hy & Hz).
    apply (wp_mono _ (fun _ => extended nx ny nz px py pz (S a) N s1)).
    2: apply IH; lia.
    intros _ s2 (Hx2 & Hy2 & Hz2). unfold extended.
    rewrite Hx2, Hy2, Hz2, Hx, Hy, Hz. simpl.
    now rewrite <- !app_assoc.
Qed.

(** From empty lists, frames [0 .. N-1] leave exactly the [N] computed
    positions, in frame order. *)
Lemma run_frames_fresh (N : nat) (a : string -> Line) :
  (N <= n)%nat ->
  exists s', final (run_frames update (seq 0 N)) (fresh a) = Some s' /\
    buffers s' nx = map px (seq 0 N) /\
    buffers s' ny = map py (seq 0 N) /\
    buffers s' nz = map pz (seq 0 N).
Proof.
  intros Hle.
  destruct (wp_elim _ _ _ (run_frames_extends N 0 (fresh a) Hle))
    as (u & s' & Hrun & Hx & Hy & Hz).
  exists s'. unfold final. rewrite Hrun. simpl in *. auto.
Qed.

End Trajectory.

Lemma map_seq_length {A : Type} (f : nat -> A) (N : nat) :
  List.length (map f (seq 0 N)) = N.
Proof. now rewrite length_map, length_seq. Qed.

Lemma map_seq_nth {A : Type} (f : nat -> A) (N k : nat) :
  (k < N)%nat -> nth_error (map f (seq 0 N)) k = Some (f k).
Proof.
  intros Hk. rewrite nth_error_map, nth_error_seq.
  apply Nat.ltb_lt in Hk. now rewrite Hk.
Qed.

(** ** What one frame appends, script by script *)

Lemma Ballscrew_update_pushes (i : nat) (s : Store) :
  (i < Ballscrew.frames)%nat ->
  wp (Ballscrew.update i)
     (fun _ => pushes "screw_trajectory_x" "screw_trajectory_y"
                 "follower_trajectory_z"
        (Ballscrew.screw_x (Ballscrew.angular_velocity * (0 + INR i * Ballscrew.dt)))
        (Ballscrew.screw_y (Ballscrew.angular_velocity * (0 + INR i * Ballscrew.dt)))
        (Ballscrew.screw_pitch *
           (Ballscrew.angular_velocity * (0 + INR i * Ballscrew.dt) / (2 * PI)))
        s) s.
Proof.
  intros Hi. unfold Ballscrew.update.
  wp_step. apply wp_index_arange; [exact Hi|].
  unfold Ballscrew.follower_position.
  repeat wp_step.
  all: unfold pushes; repeat split; buffers_norm; reflexivity.
Qed.

Lemma CylindricalCamPlanar_update_pushes (i : nat) (s : Store) :
  (i < CylindricalCamPlanar.frames)%nat ->
  wp (CylindricalCamPlanar.update i)
     (fun _ => pushes "cam_trajectory_x" "cam_trajectory_y"
                 "follower_trajectory_z"
        (CylindricalCamPlanar.cam_x
           (CylindricalCamPlanar.angular_velocity *
              (0 + INR i * CylindricalCamPlanar.dt)))
        (CylindricalCamPlanar.cam_y
           (CylindricalCamPlanar.angular_velocity *
              (0 + INR i * CylindricalCamPlanar.dt)))
        (CylindricalCamPlanar.helix_pitch *
           (CylindricalCamPlanar.angular_velocity *
              (0 + INR i * CylindricalCamPlanar.dt) / (2 * PI)))
        s) s.
Proof.
  intros Hi. unfold CylindricalCamPlanar.update.
  wp_step. apply wp_index_arange; [exact Hi|].
  unfold CylindricalCamPlanar.follower_position.
  repeat wp_step.
  unfold pushes; repeat split; buffers_norm; reflexivity.
Qed.

Lemma CylindricalCamOrthogonal_update_pushes (i : nat) (s : Store) :
  (i < CylindricalCamOrthogonal.frames)%nat ->
  wp (CylindricalCamOrthogonal.update i)
     (fun _ => pushes "cam_trajectory_x" "cam_trajectory_y"
                 "follower_trajectory_z"
        (orthogonal_cam_x (0 + INR i * CylindricalCamOrthogonal.dt))
        (orthogonal_cam_y (0 + INR i * CylindricalCamOrthogonal.dt))
        (CylindricalCamOrthogonal.amplitude *
           sin (CylindricalCamOrthogonal.angular_velocity *
                  (0 + INR i * CylindricalCamOrthogonal.dt)))
        s) s.
Proof.
  intros Hi. unfold CylindricalCamOrthogonal.update.
  unfold CylindricalCamOrthogonal.follower_position.
  repeat first [ apply wp_index_arange; [exact Hi|] | wp_step ].
  unfold pushes, orthogonal_cam_x, orthogonal_cam_y;
    repeat split; buffers_norm; reflexivity.
Qed.

(** The value [CylindricalCamRotTrans.follower_position] returns. *)
Lemma wp_CylindricalCamRotTrans_follower_position
      (angle : R) (Q : R -> Store -> Prop) (s : Store) :
  Q (if Rle_dec angle PI then 0
     else CylindricalCamRotTrans.helix_pitch * ((angle - PI) / (2 * PI))) s ->
  wp (CylindricalCamRotTrans.follower_position angle) Q s.
Proof.
  unfold CylindricalCamRotTrans.follower_position.
  destruct (Rle_dec angle PI); intros HQ; now apply wp_ret.
Qed.

Lemma CylindricalCamRotTrans_update_pushes (i : nat) (s : Store) :
  (i < CylindricalCamRotTrans.frames)%nat ->
  let angle := CylindricalCamRotTrans.angular_velocity *
                 (0 + INR i * CylindricalCamRotTrans.dt) in
  wp (CylindricalCamRotTrans.update i)
     (fun _ => pushes "cam_trajectory_x" "cam_trajectory_y"
                 "follower_trajectory_z"
        (CylindricalCamRotTrans.cam_x angle)
        (CylindricalCamRotTrans.cam_y angle)
        (if Rle_dec angle PI then 0
         else CylindricalCamRotTrans.helix_pitch * ((angle - PI) / (2 * PI)))
        s) s.
Proof.
  intros Hi angle. unfold CylindricalCamRotTrans.update.
  wp_step. apply wp_index_arange; [exact Hi|].
  wp_step. apply wp_CylindricalCamRotTrans_follower_position.
  repeat wp_step.
  all: unfold pushes; repeat split; buffers_norm; reflexivity.
Qed.

Lemma PI_gt_2 : 2 < PI.
Proof. pose proof PI2_1. lra. Qed.

Lemma rise_time_bound (i : nat) :
  (i < BallscrewRotTrans.frames)%nat -> 0 <= rise_time i < 10.
Proof.
  intros Hi. unfold rise_time, BallscrewRotTrans.dt.
  unfold BallscrewRotTrans.frames in Hi.
  assert (H0 : 0 <= INR i) by apply pos_INR.
  assert (H1 : INR i <= INR 199) by (apply le_INR; lia).
  replace (INR 199) with 199 in H1 by (simpl; lra).
  lra.
Qed.

Lemma wp_BallscrewRotTrans_follower_z
      (i : nat) (Q : R -> Store -> Prop) (s : Store) :
  (i < BallscrewRotTrans.frames)%nat ->
  Q (rise i) s ->
  wp (BallscrewRotTrans.follower_z i
        (BallscrewRotTrans.angular_velocity * rise_time i)) Q s.
Proof.
  intros Hi HQ. pose proof (rise_time_bound i Hi) as [Hlo Hhi].
  pose proof PI_gt_2 as Hpi.
  unfold BallscrewRotTrans.follower_z, BallscrewRotTrans.angular_velocity,
    BallscrewRotTrans.t_end, BallscrewRotTrans.screw_pitch.
  destruct (Rle_dec (2 * PI / 10 * rise_time i) PI) as [Hle|Hgt].
  - apply wp_ret.
    assert (Ht : rise_time i <= 5) by nra.
    replace 0 with (rise i); [exact HQ|].
    unfold rise. apply Rmax_left. lra.
  - assert (Ht : 5 < rise_time i) by nra.
    wp_step. apply wp_index_arange; [exact Hi|].
    fold (rise_time i).
    destruct (Rlt_dec (rise_time i - 10 / 2) (10 - 10 / 2)) as [Hlt|Hge];
      [|exfalso; lra].
    apply wp_ret.
    replace ((rise_time i - 10 / 2) / (10 - 10 / 2) * 2.5) with (rise i);
      [exact HQ|].
    unfold rise. rewrite Rmax_right by lra. lra.
Qed.

Lemma BallscrewRotTrans_update_pushes (i : nat) (s : Store) :
  (i < BallscrewRotTrans.frames)%nat ->
  wp (BallscrewRotTrans.update i)
     (fun _ => pushes "screw_trajectory_x" "screw_trajectory_y"
                 "follower_trajectory_z"
        (BallscrewRotTrans.screw_x
           (BallscrewRotTrans.angular_velocity * rise_time i))
        (BallscrewRotTrans.screw_y
           (BallscrewRotTrans.angular_velocity * rise_time i))
        (rise i)
        s) s.
Proof.
  intros Hi. unfold BallscrewRotTrans.update.
  wp_step. apply wp_index_arange; [exact Hi|]. fold (rise_time i).
  wp_step. apply wp_BallscrewRotTrans_follower_z; [exact Hi|].
  repeat wp_step.
  all: unfold pushes; repeat split; buffers_norm; reflexivity.
Qed.

(** ** Position functions *)

Lemma PI_neq_0 : PI <> 0.
Proof. pose proof PI_RGT_0. lra. Qed.

(** C3. Pure-rotation screw model (Ballscrew, CylindricalCamPlanar): at
    every angle the displacement is pitch * angle / (2 pi); it is 0 at
    angle 0, the pitch at a full turn, and with the pitch 2.5 of the
    ball screw it is 1.25 at half a turn. *)
Theorem screw_displacement_linear :
  forall (theta : R) (s : Store),
    (value (Ballscrew.follower_position theta) s
       = Some (Ballscrew.screw_pitch * theta / (2 * PI)) /\
     value (Ballscrew.follower_position 0) s = Some 0 /\
     value (Ballscrew.follower_position (2 * PI)) s
       = Some Ballscrew.screw_pitch /\
     Ballscrew.screw_pitch = 2.5 /\
     value (Ballscrew.follower_position PI) s = Some 1.25) /\
    (value (CylindricalCamPlanar.follower_position theta) s
       = Some (CylindricalCamPlanar.helix_pitch * theta / (2 * PI)) /\
     value (CylindricalCamPlanar.follower_position 0) s = Some 0 /\
     value (CylindricalCamPlanar.follower_position (2 * PI)) s
       = Some CylindricalCamPlanar.helix_pitch).
Proof.
  intros theta s. pose proof PI_neq_0 as Hpi.
  unfold value, Ballscrew.follower_position,
    CylindricalCamPlanar.follower_position, ret; simpl.
  unfold Ballscrew.screw_pitch, CylindricalCamPlanar.helix_pitch.
  assert (Hsome : forall x y : R, x = y -> Some x = Some y)
    by (intros x y ->; reflexivity).
  repeat split; try reflexivity; apply Hsome; try (field; exact Hpi).
  replace (PI / (2 * PI)) with (1 / 2) by (field; exact Hpi). lra.
Qed.

(** C4. Dead-zone model (BallscrewRotTrans, CylindricalCamRotTrans): for
    every angle between 0 and pi the displacement is 0. *)
Theorem dead_zone_displacement_zero :
  forall (theta : R) (s : Store),
    0 <= theta <= PI ->
    value (BallscrewRotTrans.follower_position theta) s = Some 0 /\
    value (CylindricalCamRotTrans.follower_position theta) s = Some 0.
Proof.
  intros theta s [_ Hle].
  unfold value, BallscrewRotTrans.follower_position,
    CylindricalCamRotTrans.follower_position.
  destruct (Rle_dec theta PI) as [_|Hn]; [|contradiction].
  split; reflexivity.
Qed.

Lemma dead_zone_displacement_zero_witness :
  0 <= 1 <= PI /\
  value (BallscrewRotTrans.follower_position 1) (fresh (fun _ => empty_line))
    = Some 0 /\
  value (CylindricalCamRotTrans.follower_position 1)
        (fresh (fun _ => empty_line)) = Some 0.
Proof.
  assert (H : 0 <= 1 <= PI) by (pose proof PI_gt_2; lra).
  split; [exact H|].
  exact (dead_zone_displacement_zero 1 (fresh (fun _ => empty_line)) H).
Defined.

(** C5. Sinusoidal cam model (CylindricalCamOrthogonal): at every time t
    the displacement is amplitude * sin (angular_velocity * t); it is 0
    at time 0. *)
Theorem sinusoidal_displacement :
  forall (t : R) (s : Store),
    value (CylindricalCamOrthogonal.follower_position t) s
      = Some (CylindricalCamOrthogonal.amplitude *
              sin (CylindricalCamOrthogonal.angular_velocity * t)) /\
    value (CylindricalCamOrthogonal.follower_position 0) s = Some 0.
Proof.
  intros t s. unfold value, CylindricalCamOrthogonal.follower_position, ret.
  simpl. split; [reflexivity|].
  now rewrite Rmult_0_r, sin_0, Rmult_0_r.
Qed.

(** C6. The sinusoidal cam displacement has period
    2 pi / angular_velocity. *)
Theorem sinusoidal_displacement_periodic :
  forall (t : R) (s : Store),
    value (CylindricalCamOrthogonal.follower_position
             (t + 2 * PI / CylindricalCamOrthogonal.angular_velocity)) s
    = value (CylindricalCamOrthogonal.follower_position t) s.
Proof.
  intros t s. unfold value, CylindricalCamOrthogonal.follower_position, ret.
  simpl. do 2 f_equal.
  unfold CylindricalCamOrthogonal.angular_velocity,
    CylindricalCamOrthogonal.frequency.
  pose proof PI_neq_0 as Hpi.
  replace (2 * PI * 1 * (t + 2 * PI / (2 * PI * 1)))
    with (2 * PI * 1 * t + 2 * PI) by (field; exact Hpi).
  rewrite <- (sin_period (2 * PI * 1 * t) 1). simpl INR.
  f_equal. ring.
Qed.

(** C8. Each script's [follower_position] is a pure call: evaluated at
    the same argument it returns the same value from any two stores, and
    the store after the call is the store before it. *)
Theorem follower_position_pure :
  pure_call Ballscrew.follower_position /\
  pure_call BallscrewRotTrans.follower_position /\
  pure_call CylindricalCamOrthogonal.follower_position /\
  pure_call CylindricalCamPlanar.follower_position /\
  pure_call CylindricalCamRotTrans.follower_position.
Proof.
  unfold pure_call. repeat split; intros a s1 s2.
  - eexists; split; reflexivity.
  - unfold BallscrewRotTrans.follower_position.
    destruct (Rle_dec a PI); eexists; split; reflexivity.
  - eexists; split; reflexivity.
  - eexists; split; reflexivity.
  - unfold CylindricalCamRotTrans.follower_position.
    destruct (Rle_dec a PI); eexists; split; reflexivity.
Qed.

(** ** The dead-zone cam: the rise after half a turn *)

Lemma CylindricalCamRotTrans_ramp (theta : R) (s : Store) :
  PI < theta ->
  value (CylindricalCamRotTrans.follower_position theta) s
  = Some (CylindricalCamRotTrans.helix_pitch * ((theta - PI) / (2 * PI))).
Proof.
  intros Hgt. unfold value, CylindricalCamRotTrans.follower_position.
  destruct (Rle_dec theta PI) as [Hle|_]; [lra|reflexivity].
Qed.

Lemma CylindricalCamRotTrans_helix_pitch_pos :
  0 < CylindricalCamRotTrans.helix_pitch.
Proof.
  unfold CylindricalCamRotTrans.helix_pitch,
    CylindricalCamRotTrans.translation_stroke.
  pose proof PI_RGT_0. apply Rdiv_lt_0_compat; lra.
Qed.

Lemma CylindricalCamRotTrans_monotone (theta1 theta2 v1 v2 : R) (s : Store) :
  theta1 <= theta2 ->
  value (CylindricalCamRotTrans.follower_position theta1) s = Some v1 ->
  value (CylindricalCamRotTrans.follower_position theta2) s = Some v2 ->
  v1 <= v2.
Proof.
  intros Hle. unfold value, CylindricalCamRotTrans.follower_position.
  pose proof CylindricalCamRotTrans_helix_pitch_pos as Hp.
  pose proof PI_RGT_0 as Hpi.
  assert (Hinc : forall x y, x <= y ->
            CylindricalCamRotTrans.helix_pitch * ((x - PI) / (2 * PI))
            <= CylindricalCamRotTrans.helix_pitch * ((y - PI) / (2 * PI))).
  { intros x y Hxy. apply Rmult_le_compat_l; [lra|].
    unfold Rdiv. apply Rmult_le_compat_r; [|lra].
    apply Rlt_le, Rinv_0_lt_compat. lra. }
  destruct (Rle_dec theta1 PI) as [H1|H1], (Rle_dec theta2 PI) as [H2|H2];
    simpl; intros E1 E2; inversion E1; inversion E2; subst; clear E1 E2.
  - lra.
  - apply Rnot_le_lt in H2.
    replace 0 with (CylindricalCamRotTrans.helix_pitch * ((PI - PI) / (2 * PI)))
      by (unfold Rdiv; rewrite Rminus_diag; ring).
    apply Hinc. lra.
  - lra.
  - now apply Hinc.
Qed.

(** C1. In CylindricalCamRotTrans the rise after half a turn is a
    non-decreasing linear ramp, but at a full turn it has reached
    translation_stroke / (4 pi), which is less than the stroke: the
    displacement at 2 pi is not the stroke. *)
Theorem CylindricalCamRotTrans_full_turn_short_of_stroke :
  forall s : Store,
    value (CylindricalCamRotTrans.follower_position (2 * PI)) s
      = Some (CylindricalCamRotTrans.translation_stroke / (4 * PI)) /\
    CylindricalCamRotTrans.translation_stroke / (4 * PI)
      < CylindricalCamRotTrans.translation_stroke.
Proof.
  intros s. pose proof PI_gt_2 as Hpi. split.
  - rewrite CylindricalCamRotTrans_ramp by lra.
    unfold CylindricalCamRotTrans.helix_pitch.
    assert (Hsome : forall x y : R, x = y -> Some x = Some y)
      by (intros x y ->; reflexivity).
    apply Hsome. field. lra.
  - unfold CylindricalCamRotTrans.translation_stroke.
    apply (Rmult_lt_reg_r (4 * PI)); [lra|].
    unfold Rdiv. rewrite Rmult_assoc, Rinv_l by lra. lra.
Qed.

(** The sibling script reaches its full height at a full turn. *)
Lemma BallscrewRotTrans_full_turn (s : Store) :
  value (BallscrewRotTrans.follower_position (2 * PI)) s
  = Some BallscrewRotTrans.screw_pitch.
Proof.
  unfold value, BallscrewRotTrans.follower_position.
  pose proof PI_RGT_0.
  destruct (Rle_dec (2 * PI) PI) as [Hle|_]; [lra|reflexivity].
Qed.

(** ** The driving point and its circle *)

Lemma circle_point (r theta : R) :
  (r * cos theta + 0) * (r * cos theta + 0) + (r * sin theta) * (r * sin theta)
  = r * r.
Proof.
  pose proof (sin2_cos2 theta) as H. unfold Rsqr in H. nra.
Qed.

Lemma orthogonal_quarter_turn :
  CylindricalCamOrthogonal.angular_velocity *
    (0 + INR 5 * CylindricalCamOrthogonal.dt) = PI / 2.
Proof.
  unfold CylindricalCamOrthogonal.angular_velocity,
    CylindricalCamOrthogonal.frequency, CylindricalCamOrthogonal.dt.
  replace (INR 5) with 5 by (simpl; lra). lra.
Qed.

(** C2, as stated, fails: in CylindricalCamOrthogonal the point computed
    at frame 5 (a quarter turn) is (0, 3), off the circle of radius
    cam_radius = 2. *)
Lemma CylindricalCamOrthogonal_point_off_base_circle :
  exists (s' : Store) (x y : R),
    final (CylindricalCamOrthogonal.update 5) (fresh (fun _ => empty_line))
      = Some s' /\
    buffers s' "cam_trajectory_x" = [x] /\
    buffers s' "cam_trajectory_y" = [y] /\
    x * x + y * y = 9 /\
    x * x + y * y
      <> CylindricalCamOrthogonal.cam_radius * CylindricalCamOrthogonal.cam_radius.
Proof.
  assert (H5 : (5 < CylindricalCamOrthogonal.frames)%nat)
    by (unfold CylindricalCamOrthogonal.frames; lia).
  destruct (wp_elim _ _ _
              (CylindricalCamOrthogonal_update_pushes 5
                 (fresh (fun _ => empty_line)) H5))
    as (u & s' & Hrun & Hx & Hy & _).
  exists s', (orthogonal_cam_x (0 + INR 5 * CylindricalCamOrthogonal.dt)),
    (orthogonal_cam_y (0 + INR 5 * CylindricalCamOrthogonal.dt)).
  unfold final. rewrite Hrun. simpl in Hx, Hy.
  split; [reflexivity|]. split; [exact Hx|]. split; [exact Hy|].
  unfold orthogonal_cam_x, orthogonal_cam_y.
  rewrite orthogonal_quarter_turn, sin_PI2, cos_PI2.
  unfold CylindricalCamOrthogonal.cam_radius, CylindricalCamOrthogonal.amplitude.
  split; lra.
Qed.

(** C2, amended. In Ballscrew, BallscrewRotTrans, CylindricalCamPlanar
    and CylindricalCamRotTrans the driving point lies, at every angle, on
    the circle of the script's base radius.  In CylindricalCamOrthogonal
    the point appended at frame i lies on the circle whose radius is the
    base radius plus the follower displacement at that frame's time. *)
Theorem driving_point_on_circle :
  (forall theta : R,
     Ballscrew.screw_x theta * Ballscrew.screw_x theta +
     Ballscrew.screw_y theta * Ballscrew.screw_y theta
     = Ballscrew.screw_radius * Ballscrew.screw_radius) /\
  (forall theta : R,
     BallscrewRotTrans.screw_x theta * BallscrewRotTrans.screw_x theta +
     BallscrewRotTrans.screw_y theta * BallscrewRotTrans.screw_y theta
     = BallscrewRotTrans.screw_radius * BallscrewRotTrans.screw_radius) /\
  (forall theta : R,
     CylindricalCamPlanar.cam_x theta * CylindricalCamPlanar.cam_x theta +
     CylindricalCamPlanar.cam_y theta * CylindricalCamPlanar.cam_y theta
     = CylindricalCamPlanar.cam_radius * CylindricalCamPlanar.cam_radius) /\
  (forall theta : R,
     CylindricalCamRotTrans.cam_x theta * CylindricalCamRotTrans.cam_x theta +
     CylindricalCamRotTrans.cam_y theta * CylindricalCamRotTrans.cam_y theta
     = CylindricalCamRotTrans.cam_radius * CylindricalCamRotTrans.cam_radius) /\
  (forall (i : nat) (s : Store),
     (i < CylindricalCamOrthogonal.frames)%nat ->
     exists (s' : Store) (ti f x y : R),
       nth_error CylindricalCamOrthogonal.t i = Some ti /\
       value (CylindricalCamOrthogonal.follower_position ti) s = Some f /\
       final (CylindricalCamOrthogonal.update i) s = Some s' /\
       buffers s' "cam_trajectory_x"
         = (buffers s "cam_trajectory_x" ++ [x])%list /\
       buffers s' "cam_trajectory_y"
         = (buffers s "cam_trajectory_y" ++ [y])%list /\
       x * x + y * y
         = (CylindricalCamOrthogonal.cam_radius + f) *
           (CylindricalCamOrthogonal.cam_radius + f)).
Proof.
  repeat split.
  - intros theta. apply circle_point.
  - intros theta. apply circle_point.
  - intros theta. apply circle_point.
  - intros theta. apply circle_point.
  - intros i s Hi.
    destruct (wp_elim _ _ _ (CylindricalCamOrthogonal_update_pushes i s Hi))
      as (u & s' & Hrun & Hx & Hy & _).
    exists s', (0 + INR i * CylindricalCamOrthogonal.dt),
      (CylindricalCamOrthogonal.amplitude *
         sin (CylindricalCamOrthogonal.angular_velocity *
                (0 + INR i * CylindricalCamOrthogonal.dt))),
      (orthogonal_cam_x (0 + INR i * CylindricalCamOrthogonal.dt)),
      (orthogonal_cam_y (0 + INR i * CylindricalCamOrthogonal.dt)).
    split; [now apply arange_nth|]. split; [reflexivity|].
    unfold final. rewrite Hrun. split; [reflexivity|].
    split; [exact Hx|]. split; [exact Hy|].
    unfold orthogonal_cam_x, orthogonal_cam_y.
    pose proof (sin2_cos2 (CylindricalCamOrthogonal.angular_velocity *
                             (0 + INR i * CylindricalCamOrthogonal.dt))) as H.
    unfold Rsqr in H.
    set (sn := sin _) in *. set (cs := cos _) in *.
    set (k := CylindricalCamOrthogonal.cam_radius + _).
    replace (k * cs * (k * cs) + k * sn * (k * sn))
      with (k * k * (sn * sn + cs * cs)) by ring.
    rewrite H. ring.
Qed.

Lemma driving_point_on_circle_witness :
  (5 < CylindricalCamOrthogonal.frames)%nat /\
  exists (s' : Store) (ti f x y : R),
    nth_error CylindricalCamOrthogonal.t 5 = Some ti /\
    value (CylindricalCamOrthogonal.follower_position ti)
          (fresh (fun _ => empty_line)) = Some f /\
    final (CylindricalCamOrthogonal.update 5) (fresh (fun _ => empty_line))
      = Some s' /\
    buffers s' "cam_trajectory_x"
      = (buffers (fresh (fun _ => empty_line)) "cam_trajectory_x" ++ [x])%list /\
    buffers s' "cam_trajectory_y"
      = (buffers (fresh (fun _ => empty_line)) "cam_trajectory_y" ++ [y])%list /\
    x * x + y * y
      = (CylindricalCamOrthogonal.cam_radius + f) *
        (CylindricalCamOrthogonal.cam_radius + f).
Proof.
  assert (H5 : (5 < CylindricalCamOrthogonal.frames)%nat)
    by (unfold CylindricalCamOrthogonal.frames; lia).
  split; [exact H5|].
  exact (proj2 (proj2 (proj2 (proj2 driving_point_on_circle)))
           5%nat (fresh (fun _ => empty_line)) H5).
Defined.

(** ** Trajectory histories *)

(** C7. From empty trajectory lists, after the update step has run for
    frames 0 .. N-1 (N at most the number of frames), each of the three
    lists has length N and its k-th element is the position computed at
    frame k (Ballscrew and CylindricalCamOrthogonal). *)
Theorem trajectory_history_in_frame_order :
  forall (N : nat) (a : string -> Line),
    (N <= 200)%nat ->
    (exists s' : Store,
       final (run_frames Ballscrew.update (seq 0 N)) (fresh a) = Some s' /\
       List.length (buffers s' "screw_trajectory_x") = N /\
       List.length (buffers s' "screw_trajectory_y") = N /\
       List.length (buffers s' "follower_trajectory_z") = N /\
       forall (k : nat) (tk : R),
         (k < N)%nat -> nth_error Ballscrew.t k = Some tk ->
         let angle := Ballscrew.angular_velocity * tk in
         nth_error (buffers s' "screw_trajectory_x") k
           = Some (Ballscrew.screw_x angle) /\
         nth_error (buffers s' "screw_trajectory_y") k
           = Some (Ballscrew.screw_y angle) /\
         nth_error (buffers s' "follower_trajectory_z") k
           = value (Ballscrew.follower_position angle) s') /\
    (exists s' : Store,
       final (run_frames CylindricalCamOrthogonal.update (seq 0 N)) (fresh a)
         = Some s' /\
       List.length (buffers s' "cam_trajectory_x") = N /\
       List.length (buffers s' "cam_trajectory_y") = N /\
       List.length (buffers s' "follower_trajectory_z") = N /\
       forall (k : nat) (tk : R),
         (k < N)%nat -> nth_error CylindricalCamOrthogonal.t k = Some tk ->
         nth_error (buffers s' "cam_trajectory_x") k
           = Some (orthogonal_cam_x tk) /\
         nth_error (buffers s' "cam_trajectory_y") k
           = Some (orthogonal_cam_y tk) /\
         nth_error (buffers s' "follower_trajectory_z") k
           = value (CylindricalCamOrthogonal.follower_position tk) s').
Proof.
  intros N a HN. split.
  - destruct (run_frames_fresh Ballscrew.update Ballscrew.frames _ _ _ _ _ _
                Ballscrew_update_pushes N a HN)
      as (s' & Hrun & Hx & Hy & Hz).
    exists s'. split; [exact Hrun|].
    rewrite Hx, Hy, Hz, !map_seq_length.
    do 3 (split; [reflexivity|]).
    intros k tk Hk Ht angle. subst angle.
    assert (Hk' : (k < Ballscrew.frames)%nat)
      by (unfold Ballscrew.frames; lia).
    unfold Ballscrew.t in Ht. rewrite arange_nth in Ht by exact Hk'.
    inversion Ht; subst tk. rewrite !map_seq_nth by exact Hk.
    repeat split; reflexivity.
  - destruct (run_frames_fresh CylindricalCamOrthogonal.update
                CylindricalCamOrthogonal.frames _ _ _ _ _ _
                CylindricalCamOrthogonal_update_pushes N a HN)
      as (s' & Hrun & Hx & Hy & Hz).
    exists s'. split; [exact Hrun|].
    rewrite Hx, Hy, Hz, !map_seq_length.
    do 3 (split; [reflexivity|]).
    intros k tk Hk Ht.
    assert (Hk' : (k < CylindricalCamOrthogonal.frames)%nat)
      by (unfold CylindricalCamOrthogonal.frames; lia).
    unfold CylindricalCamOrthogonal.t in Ht.
    rewrite arange_nth in Ht by exact Hk'.
    inversion Ht; subst tk. rewrite !map_seq_nth by exact Hk.
    repeat split; reflexivity.
Qed.

Lemma trajectory_history_in_frame_order_witness :
  (3 <= 200)%nat /\
  (exists s' : Store,
     final (run_frames Ballscrew.update (seq 0 3)) (fresh (fun _ => empty_line))
       = Some s' /\
     List.length (buffers s' "screw_trajectory_x") = 3%nat /\
     List.length (buffers s' "follower_trajectory_z") = 3%nat).
Proof.
  assert (H3 : (3 <= 200)%nat) by lia.
  split; [exact H3|].
  destruct (proj1 (trajectory_history_in_frame_order 3
                     (fun _ => empty_line) H3))
    as (s' & Hrun & Hx & _ & Hz & _).
  exists s'. repeat split; assumption.
Defined.

(** ** BallscrewRotTrans: the follower height over the frames *)

Lemma rise_bounds (i : nat) :
  (i < BallscrewRotTrans.frames)%nat ->
  0 <= rise i <= BallscrewRotTrans.screw_pitch.
Proof.
  intros Hi. destruct (rise_time_bound i Hi) as [Hlo Hhi].
  unfold rise, BallscrewRotTrans.screw_pitch. split.
  - apply Rmax_l.
  - apply Rmax_lub; lra.
Qed.

Lemma rise_monotone (i j : nat) : (i <= j)%nat -> rise i <= rise j.
Proof.
  intros Hij. unfold rise, rise_time, BallscrewRotTrans.dt.
  apply le_INR in Hij.
  apply Rle_max_compat_l. lra.
Qed.

Lemma nth_error_map_seq {A : Type} (f : nat -> A) (N k : nat) (v : A) :
  nth_error (map f (seq 0 N)) k = Some v -> (k < N)%nat /\ v = f k.
Proof.
  intros H.
  assert (Hk : (k < N)%nat).
  { rewrite <- (map_seq_length f N). apply nth_error_Some. now rewrite H. }
  split; [exact Hk|].
  rewrite map_seq_nth in H by exact Hk. now inversion H.
Qed.

(** C9. In BallscrewRotTrans, over the frames 0 .. N-1 (N at most 200)
    every follower height appended by [update] lies between 0 and
    screw_pitch, and the heights are non-decreasing in the frame index. *)
Theorem BallscrewRotTrans_follower_z_bounded_monotone :
  forall (N : nat) (a : string -> Line),
    (N <= 200)%nat ->
    exists s' : Store,
      final (run_frames BallscrewRotTrans.update (seq 0 N)) (fresh a)
        = Some s' /\
      List.length (buffers s' "follower_trajectory_z") = N /\
      (forall (k : nat) (z : R),
         nth_error (buffers s' "follower_trajectory_z") k = Some z ->
         0 <= z <= BallscrewRotTrans.screw_pitch) /\
      (forall (k1 k2 : nat) (z1 z2 : R),
         (k1 <= k2)%nat ->
         nth_error (buffers s' "follower_trajectory_z") k1 = Some z1 ->
         nth_error (buffers s' "follower_trajectory_z") k2 = Some z2 ->
         z1 <= z2).
Proof.
  intros N a HN.
  destruct (run_frames_fresh BallscrewRotTrans.update BallscrewRotTrans.frames
              _ _ _ _ _ _ BallscrewRotTrans_update_pushes N a HN)
    as (s' & Hrun & _ & _ & Hz).
  exists s'. split; [exact Hrun|]. rewrite Hz.
  split; [apply map_seq_length|]. split.
  - intros k z Hk. apply nth_error_map_seq in Hk as [Hlt ->].
    apply rise_bounds. unfold BallscrewRotTrans.frames. lia.
  - intros k1 k2 z1 z2 Hle H1 H2.
    apply nth_error_map_seq in H1 as [_ ->].
    apply nth_error_map_seq in H2 as [_ ->].
    now apply rise_monotone.
Qed.

Lemma BallscrewRotTrans_follower_z_bounded_monotone_witness :
  (200 <= 200)%nat /\
  exists s' : Store,
    final (run_frames BallscrewRotTrans.update (seq 0 200))
          (fresh (fun _ => empty_line)) = Some s' /\
    List.length (buffers s' "follower_trajectory_z") = 200%nat.
Proof.
  assert (H : (200 <= 200)%nat) by lia.
  split; [exact H|].
  destruct (BallscrewRotTrans_follower_z_bounded_monotone 200
              (fun _ => empty_line) H) as (s' & Hrun & Hlen & _).
  exists s'. split; assumption.
Defined.

(** ** OrthogonalLinkage: the two links keep their lengths *)

Lemma sqrt_of_square (L x : R) : 0 <= L -> x = L * L -> sqrt x = L.
Proof. intros HL ->. now apply sqrt_square. Qed.

(** C10. In OrthogonalLinkage, after [update] at any frame, Linkage A
    runs from the origin to a point at distance linkage_length_A, and
    Linkage B runs from that point to one at distance linkage_length_B
    from it. *)
Theorem linkage_lengths_invariant :
  forall (frame : R) (s : Store),
    exists s' : Store,
      final (OrthogonalLinkage.update frame) s = Some s' /\
      let A := artists s' "line_A" in
      let B := artists s' "line_B" in
      OrthogonalLinkage.point A 0 = (0, 0, 0) /\
      OrthogonalLinkage.dist (OrthogonalLinkage.point A 0)
                             (OrthogonalLinkage.point A 1)
        = OrthogonalLinkage.linkage_length_A /\
      OrthogonalLinkage.point B 0 = OrthogonalLinkage.point A 1 /\
      OrthogonalLinkage.dist (OrthogonalLinkage.point B 0)
                             (OrthogonalLinkage.point B 1)
        = OrthogonalLinkage.linkage_length_B.
Proof.
  intros frame s. eexists. split.
  - unfold final, OrthogonalLinkage.update, bind, set_data, set_3d_properties.
    simpl. reflexivity.
  - unfold OrthogonalLinkage.point, OrthogonalLinkage.dist,
      OrthogonalLinkage.linkage_length_A, OrthogonalLinkage.linkage_length_B.
    simpl.
    set (tA := OrthogonalLinkage.radians frame).
    set (tB := OrthogonalLinkage.radians (frame * 1.5)).
    pose proof (sin2_cos2 tA) as HA. pose proof (sin2_cos2 tB) as HB.
    unfold Rsqr in HA, HB.
    repeat split.
    + apply sqrt_of_square; [lra|]. nra.
    + apply sqrt_of_square; [lra|]. nra.
Qed.

(** ** Rules that keep track of the artists as well *)
Section ExactRules.

Lemma wp_set_data_exact (name : string) (xs ys : list R)
      (Q : unit -> Store -> Prop) (s : Store) :
  (forall s',
      artists s' = upd (artists s) name (mkLine xs ys (zdata (artists s name))) ->
      buffers s' = buffers s -> Q tt s') ->
  wp (set_data name xs ys) Q s.
Proof. intros HQ. apply HQ; reflexivity. Qed.

Lemma wp_set_ydata_exact (name : string) (ys : list R)
      (Q : unit -> Store -> Prop) (s : Store) :
  (forall s',
      artists s' = upd (artists s) name
                     (mkLine (xdata (artists s name)) ys (zdata (artists s name))) ->
      buffers s' = buffers s -> Q tt s') ->
  wp (set_ydata name ys) Q s.
Proof. intros HQ. apply HQ; reflexivity. Qed.

Lemma wp_set_3d_properties_exact (name : string) (zs : list R)
      (Q : unit -> Store -> Prop) (s : Store) :
  (forall s',
      artists s' = upd (artists s) name
                     (mkLine (xdata (artists s name)) (ydata (artists s name)) zs) ->
      buffers s' = buffers s -> Q tt s') ->
  wp (set_3d_properties name zs) Q s.
Proof. intros HQ. apply HQ; reflexivity. Qed.

Lemma wp_append_exact (name : string) (v : R)
      (Q : unit -> Store -> Prop) (s : Store) :
  (forall s',
      artists s' = artists s ->
      buffers s' = upd (buffers s) name (buffers s name ++ [v])%list ->
      Q tt s') ->
  wp (append name v) Q s.
Proof. intros HQ. apply HQ; reflexivity. Qed.

Lemma not_in_cons_eqb (k n : string) (l : list string) :
  ~ In n (k :: l) -> String.eqb k n = false /\ ~ In n l.
Proof.
  intros H. split.
  - apply String.eqb_neq. intros ->. apply H. now left.
  - intros Hin. apply H. now right.
Qed.

End ExactRules.

Ltac wp_exact_step :=
  lazymatch goal with
  | |- wp (bind _ _) _ _ => apply wp_bind
  | |- wp (ret _) _ _ => apply wp_ret
  | |- wp (set_data _ _ _) _ _ =>
      apply wp_set_data_exact;
      let s := fresh "s" in let Ha := fresh "Ha" in let Hb := fresh "Hb" in
      intros s Ha Hb
  | |- wp (set_ydata _ _) _ _ =>
      apply wp_set_ydata_exact;
      let s := fresh "s" in let Ha := fresh "Ha" in let Hb := fresh "Hb" in
      intros s Ha Hb
  | |- wp (set_3d_properties _ _) _ _ =>
      apply wp_set_3d_properties_exact;
      let s := fresh "s" in let Ha := fresh "Ha" in let Hb := fresh "Hb" in
      intros s Ha Hb
  | |- wp (append _ _) _ _ =>
      apply wp_append_exact;
      let s := fresh "s" in let Ha := fresh "Ha" in let Hb := fresh "Hb" in
      intros s Ha Hb
  | |- wp (content _) _ _ => apply wp_content
  | |- wp (if Nat.eqb ?i 0 then _ else _) _ _ => destruct (Nat.eqb i 0)
  end.

(** Resolving a lookup in the final store back to the initial one. *)
Ltac store_norm :=
  repeat first
    [ rewrite upd_same
    | rewrite upd_other by (reflexivity || assumption)
    | progress cbn [xdata ydata zdata]
    | match goal with
      | H : artists ?s = _ |- context [artists ?s] => rewrite H
      | H : buffers ?s = _ |- context [buffers ?s] => rewrite H
      end ].

(** Turning [~ In n names] into one inequality per name. *)
Ltac split_not_in H :=
  repeat match type of H with
         | ~ In _ (_ :: _) =>
             let E := fresh "E" in
             apply not_in_cons_eqb in H; destruct H as [E H]
         end.

Lemma Ballscrew_update_draws (i : nat) (s : Store) :
  (i < Ballscrew.frames)%nat ->
  let angle := Ballscrew.angular_velocity * (0 + INR i * Ballscrew.dt) in
  let z := Ballscrew.screw_pitch * (angle / (2 * PI)) in
  wp (Ballscrew.update i)
     (fun _ s' =>
        artists s' "rod"
          = mkLine [Ballscrew.follower_offset_x; Ballscrew.follower_offset_x]
                   [0; 0] [z; 0] /\
        artists s' "screw"
          = mkLine [0; Ballscrew.screw_x angle] [0; Ballscrew.screw_y angle]
                   [z; z] /\
        artists s' "follower"
          = mkLine [Ballscrew.follower_offset_x] [0] [z] /\
        artists s' "follower_line"
          = mkLine [Ballscrew.screw_x angle; Ballscrew.follower_offset_x]
                   [Ballscrew.screw_y angle; 0] [z; z] /\
        artists s' "screw_traj_plot"
          = mkLine (buffers s' "screw_trajectory_x")
                   (buffers s' "screw_trajectory_y")
                   (zdata (artists s "screw_traj_plot")) /\
        artists s' "follower_traj_plot"
          = mkLine (firstn (i + 1) Ballscrew.t)
                   (firstn (i + 1) (buffers s' "follower_trajectory_z"))
                   (zdata (artists s "follower_traj_plot")) /\
        (forall n : string,
            ~ In n ["rod"; "screw"; "follower"; "follower_line";
                    "screw_traj_plot"; "follower_traj_plot"]%string ->
            artists s' n = artists s n) /\
        (forall n : string,
            ~ In n ["screw_trajectory_x"; "screw_trajectory_y";
                    "follower_trajectory_z"]%string ->
            buffers s' n = buffers s n)) s.
Proof.
  intros Hi angle z. unfold Ballscrew.update.
  wp_exact_step. apply wp_index_arange; [exact Hi|].
  unfold Ballscrew.follower_position.
  repeat wp_exact_step.
  all: repeat match goal with |- _ /\ _ => split end.
  all: try (intros n Hn; split_not_in Hn).
  all: store_norm; reflexivity.
Qed.

(** ** Frame indices outside the time array *)

Lemma bind_raise {A B : Type} (m : M A) (k : A -> M B) (s : Store) :
  m s = None -> bind m k s = None.
Proof. unfold bind. now intros ->. Qed.

Lemma wp_not_None {A : Type} (m : M A) (Q : A -> Store -> Prop) (s : Store) :
  wp m Q s -> m s <> None.
Proof. unfold wp. destruct (m s); [discriminate|contradiction]. Qed.

(** X1. In each of the five trajectory scripts, [update i] raises exactly
    when [i] is not an index of the time array [t] (200 samples); it then
    raises at its first statement. *)
Theorem update_raises_iff_out_of_range :
  forall (i : nat) (s : Store),
    (Ballscrew.update i s = None <-> (Ballscrew.frames <= i)%nat) /\
    (BallscrewRotTrans.update i s = None
       <-> (BallscrewRotTrans.frames <= i)%nat) /\
    (CylindricalCamOrthogonal.update i s = None
       <-> (CylindricalCamOrthogonal.frames <= i)%nat) /\
    (CylindricalCamPlanar.update i s = None
       <-> (CylindricalCamPlanar.frames <= i)%nat) /\
    (CylindricalCamRotTrans.update i s = None
       <-> (CylindricalCamRotTrans.frames <= i)%nat).
Proof.
  intros i s.
  repeat match goal with |- _ /\ _ => split end; split.
  all: try (intros Hge; apply bind_raise, index_arange_out; exact Hge).
  all: intros Hnone; apply Nat.nlt_ge; intros Hlt.
  - exact (wp_not_None _ _ _ (Ballscrew_update_pushes i s Hlt) Hnone).
  - exact (wp_not_None _ _ _ (BallscrewRotTrans_update_pushes i s Hlt) Hnone).
  - exact (wp_not_None _ _ _
             (CylindricalCamOrthogonal_update_pushes i s Hlt) Hnone).
  - exact (wp_not_None _ _ _ (CylindricalCamPlanar_update_pushes i s Hlt) Hnone).
  - exact (wp_not_None _ _ _
             (CylindricalCamRotTrans_update_pushes i s Hlt) Hnone).
Qed.

(** ** Histories grow at the end, whatever they held *)

Lemma run_frames_appends
      (update : nat -> M unit) (n : nat) (nx ny nz : string)
      (px py pz : nat -> R) :
  (forall (i : nat) (s : Store), (i < n)%nat ->
      wp (update i) (fun _ => pushes nx ny nz (px i) (py i) (pz i) s) s) ->
  forall (a N : nat) (s : Store), (a + N <= n)%nat ->
    exists s' : Store,
      final (run_frames update (seq a N)) s = Some s' /\
      grows_by nx N s s' /\ grows_by ny N s s' /\ grows_by nz N s s'.
Proof.
  intros Hupd a N s Hle.
  destruct (wp_elim _ _ _
              (run_frames_extends update n nx ny nz px py pz Hupd N a s Hle))
    as (u & s' & Hrun & Hx & Hy & Hz).
  exists s'. unfold final. rewrite Hrun. split; [reflexivity|].
  repeat split; eexists; (split; [|eassumption]);
    now rewrite length_map, length_seq.
Qed.

(** X2. In each of the five trajectory scripts, running [update] over
    the frames a .. a+N-1 (all within the time array) from any store
    keeps what the three trajectory lists held and adds exactly N
    entries at the end of each. *)
Theorem trajectory_lists_append_only :
  forall (a N : nat) (s : Store),
    (a + N <= 200)%nat ->
    (exists s' : Store,
       final (run_frames Ballscrew.update (seq a N)) s = Some s' /\
       grows_by "screw_trajectory_x" N s s' /\
       grows_by "screw_trajectory_y" N s s' /\
       grows_by "follower_trajectory_z" N s s') /\
    (exists s' : Store,
       final (run_frames BallscrewRotTrans.update (seq a N)) s = Some s' /\
       grows_by "screw_trajectory_x" N s s' /\
       grows_by "screw_trajectory_y" N s s' /\
       grows_by "follower_trajectory_z" N s s') /\
    (exists s' : Store,
       final (run_frames CylindricalCamOrthogonal.update (seq a N)) s
         = Some s' /\
       grows_by "cam_trajectory_x" N s s' /\
       grows_by "cam_trajectory_y" N s s' /\
       grows_by "follower_trajectory_z" N s s') /\
    (exists s' : Store,
       final (run_frames CylindricalCamPlanar.update (seq a N)) s = Some s' /\
       grows_by "cam_trajectory_x" N s s' /\
       grows_by "cam_trajectory_y" N s s' /\
       grows_by "follower_trajectory_z" N s s') /\
    (exists s' : Store,
       final (run_frames CylindricalCamRotTrans.update (seq a N)) s
         = Some s' /\
       grows_by "cam_trajectory_x" N s s' /\
       grows_by "cam_trajectory_y" N s s' /\
       grows_by "follower_trajectory_z" N s s').
Proof.
  intros a N s Hle.
  split; [|split; [|split; [|split]]].
  - exact (run_frames_appends _ _ _ _ _ _ _ _
             Ballscrew_update_pushes a N s Hle).
  - exact (run_frames_appends _ _ _ _ _ _ _ _
             BallscrewRotTrans_update_pushes a N s Hle).
  - exact (run_frames_appends _ _ _ _ _ _ _ _
             CylindricalCamOrthogonal_update_pushes a N s Hle).
  - exact (run_frames_appends _ _ _ _ _ _ _ _
             CylindricalCamPlanar_update_pushes a N s Hle).
  - refine (run_frames_appends _ _ _ _ _ _ _ _ _ a N s Hle).
    intros i s0 Hi. exact (CylindricalCamRotTrans_update_pushes i s0 Hi).
Qed.

Lemma trajectory_lists_append_only_witness :
  (0 + 200 <= 200)%nat /\
  exists s' : Store,
    final (run_frames Ballscrew.update (seq 0 200))
          (fresh (fun _ => empty_line)) = Some s'.
Proof.
  assert (H : (0 + 200 <= 200)%nat) by lia.
  split; [exact H|].
  destruct (proj1 (trajectory_lists_append_only 0 200
                     (fresh (fun _ => empty_line)) H)) as (s' & Hrun & _).
  exists s'. exact Hrun.
Defined.

(** ** What a frame leaves alone *)

Ltac frame_steps :=
  repeat wp_exact_step;
  (split; intros n Hn; split_not_in Hn; store_norm; reflexivity).

Lemma Ballscrew_update_frame (i : nat) (s : Store) :
  (i < Ballscrew.frames)%nat ->
  wp (Ballscrew.update i)
     (fun _ => only_touches
        ["rod"; "screw"; "follower"; "follower_line";
         "screw_traj_plot"; "follower_traj_plot"]%string
        ["screw_trajectory_x"; "screw_trajectory_y";
         "follower_trajectory_z"]%string s) s.
Proof.
  intros Hi. unfold Ballscrew.update.
  wp_exact_step. apply wp_index_arange; [exact Hi|].
  unfold Ballscrew.follower_position. frame_steps.
Qed.

Lemma BallscrewRotTrans_update_frame (i : nat) (s : Store) :
  (i < BallscrewRotTrans.frames)%nat ->
  wp (BallscrewRotTrans.update i)
     (fun _ => only_touches
        ["rod"; "screw"; "follower"; "follower_line";
         "screw_traj_plot"; "follower_traj_plot"]%string
        ["screw_trajectory_x"; "screw_trajectory_y";
         "follower_trajectory_z"]%string s) s.
Proof.
  intros Hi. unfold BallscrewRotTrans.update.
  wp_exact_step. apply wp_index_arange; [exact Hi|]. fold (rise_time i).
  wp_exact_step. apply wp_BallscrewRotTrans_follower_z; [exact Hi|].
  frame_steps.
Qed.

Lemma CylindricalCamOrthogonal_update_frame (i : nat) (s : Store) :
  (i < CylindricalCamOrthogonal.frames)%nat ->
  wp (CylindricalCamOrthogonal.update i)
     (fun _ => only_touches
        ["cam"; "follower"; "follower_line";
         "cam_traj_plot"; "follower_traj_plot"]%string
        ["cam_trajectory_x"; "cam_trajectory_y";
         "follower_trajectory_z"]%string s) s.
Proof.
  intros Hi. unfold CylindricalCamOrthogonal.update.
  unfold CylindricalCamOrthogonal.follower_position.
  repeat first [ apply wp_index_arange; [exact Hi|] | wp_exact_step ].
  split; intros n Hn; split_not_in Hn; store_norm; reflexivity.
Qed.

Lemma CylindricalCamPlanar_update_frame (i : nat) (s : Store) :
  (i < CylindricalCamPlanar.frames)%nat ->
  wp (CylindricalCamPlanar.update i)
     (fun _ => only_touches
        ["cam"; "follower"; "follower_line";
         "cam_traj_plot"; "follower_traj_plot"]%string
        ["cam_trajectory_x"; "cam_trajectory_y";
         "follower_trajectory_z"]%string s) s.
Proof.
  intros Hi. unfold CylindricalCamPlanar.update.
  wp_exact_step. apply wp_index_arange; [exact Hi|].
  unfold CylindricalCamPlanar.follower_position. frame_steps.
Qed.

Lemma CylindricalCamRotTrans_update_frame (i : nat) (s : Store) :
  (i < CylindricalCamRotTrans.frames)%nat ->
  wp (CylindricalCamRotTrans.update i)
     (fun _ => only_touches
        ["rod"; "cam"; "follower"; "follower_line";
         "cam_traj_plot"; "follower_traj_plot"]%string
        ["cam_trajectory_x"; "cam_trajectory_y";
         "follower_trajectory_z"]%string s) s.
Proof.
  intros Hi. unfold CylindricalCamRotTrans.update.
  wp_exact_step. apply wp_index_arange; [exact Hi|].
  wp_exact_step. apply wp_CylindricalCamRotTrans_follower_position.
  frame_steps.
Qed.

Lemma wp_final {A : Type} (m : M A) (Q : A -> Store -> Prop) (s : Store) :
  wp m Q s -> exists a s', final m s = Some s' /\ Q a s'.
Proof.
  intros H. destruct (wp_elim _ _ _ H) as (a & s' & Hrun & HQ).
  exists a, s'. unfold final. now rewrite Hrun.
Qed.

(** X3. In each of the five trajectory scripts a frame within range
    changes only the line artists it calls a setter on and the three
    trajectory lists: every other artist (the drawn profile among them)
    and every other list is left as it was. *)
Theorem update_touches_only_its_artists_and_lists :
  forall (i : nat) (s : Store),
    (i < 200)%nat ->
    (exists s' : Store,
       final (Ballscrew.update i) s = Some s' /\
       only_touches
         ["rod"; "screw"; "follower"; "follower_line";
          "screw_traj_plot"; "follower_traj_plot"]%string
         ["screw_trajectory_x"; "screw_trajectory_y";
          "follower_trajectory_z"]%string s s') /\
    (exists s' : Store,
       final (BallscrewRotTrans.update i) s = Some s' /\
       only_touches
         ["rod"; "screw"; "follower"; "follower_line";
          "screw_traj_plot"; "follower_traj_plot"]%string
         ["screw_trajectory_x"; "screw_trajectory_y";
          "follower_trajectory_z"]%string s s') /\
    (exists s' : Store,
       final (CylindricalCamOrthogonal.update i) s = Some s' /\
       only_touches
         ["cam"; "follower"; "follower_line";
          "cam_traj_plot"; "follower_traj_plot"]%string
         ["cam_trajectory_x"; "cam_trajectory_y";
          "follower_trajectory_z"]%string s s') /\
    (exists s' : Store,
       final (CylindricalCamPlanar.update i) s = Some s' /\
       only_touches
         ["cam"; "follower"; "follower_line";
          "cam_traj_plot"; "follower_traj_plot"]%string
         ["cam_trajectory_x"; "cam_trajectory_y";
          "follower_trajectory_z"]%string s s') /\
    (exists s' : Store,
       final (CylindricalCamRotTrans.update i) s = Some s' /\
       only_touches
         ["rod"; "cam"; "follower"; "follower_line";
          "cam_traj_plot"; "follower_traj_plot"]%string
         ["cam_trajectory_x"; "cam_trajectory_y";
          "follower_trajectory_z"]%string s s').
Proof.
  intros i s Hi.
  split; [|split; [|split; [|split]]].
  - destruct (wp_final _ _ _ (Ballscrew_update_frame i s Hi))
      as (_ & s' & H); now exists s'.
  - destruct (wp_final _ _ _ (BallscrewRotTrans_update_frame i s Hi))
      as (_ & s' & H); now exists s'.
  - destruct (wp_final _ _ _ (CylindricalCamOrthogonal_update_frame i s Hi))
      as (_ & s' & H); now exists s'.
  - destruct (wp_final _ _ _ (CylindricalCamPlanar_update_frame i s Hi))
      as (_ & s' & H); now exists s'.
  - destruct (wp_final _ _ _ (CylindricalCamRotTrans_update_frame i s Hi))
      as (_ & s' & H); now exists s'.
Qed.

Lemma update_touches_only_its_artists_and_lists_witness :
  (7 < 200)%nat /\
  exists s' : Store,
    final (Ballscrew.update 7) (fresh (fun _ => empty_line)) = Some s' /\
    artists s' "screw_profile" = empty_line.
Proof.
  assert (H : (7 < 200)%nat) by lia.
  split; [exact H|].
  destruct (proj1 (update_touches_only_its_artists_and_lists 7
                     (fresh (fun _ => empty_line)) H))
    as (s' & Hrun & Hart & _).
  exists s'. split; [exact Hrun|].
  rewrite Hart; [reflexivity|].
  simpl. intros [E|[E|[E|[E|[E|[E|[]]]]]]]; discriminate E.
Defined.

(** ** Ballscrew: what is drawn after a frame *)

(** X4. After a frame of Ballscrew within range the drawn parts hang
    together: the screw arm runs from the axis, at the nut's height, over
    a length of screw_radius; the nut sits at (follower_offset_x, 0, z)
    with z the follower position at the frame's angle; the dashed line
    joins the arm's tip to the nut; the rod runs from the nut straight
    down to height 0. *)
Theorem Ballscrew_drawing_connected :
  forall (i : nat) (s : Store),
    (i < Ballscrew.frames)%nat ->
    exists (s' : Store) (ti z : R),
      nth_error Ballscrew.t i = Some ti /\
      value (Ballscrew.follower_position (Ballscrew.angular_velocity * ti)) s
        = Some z /\
      final (Ballscrew.update i) s = Some s' /\
      let nut := OrthogonalLinkage.point (artists s' "follower") 0 in
      let arm := artists s' "screw" in
      let line := artists s' "follower_line" in
      let rod := artists s' "rod" in
      nut = (Ballscrew.follower_offset_x, 0, z) /\
      OrthogonalLinkage.point arm 0 = (0, 0, z) /\
      OrthogonalLinkage.dist (OrthogonalLinkage.point arm 0)
                             (OrthogonalLinkage.point arm 1)
        = Ballscrew.screw_radius /\
      OrthogonalLinkage.point line 0 = OrthogonalLinkage.point arm 1 /\
      OrthogonalLinkage.point line 1 = nut /\
      OrthogonalLinkage.point rod 0 = nut /\
      OrthogonalLinkage.point rod 1 = (Ballscrew.follower_offset_x, 0, 0).
Proof.
  intros i s Hi.
  destruct (wp_final _ _ _ (Ballscrew_update_draws i s Hi))
    as (_ & s' & Hrun & Hrod & Harm & Hnut & Hline & _).
  exists s', (0 + INR i * Ballscrew.dt),
    (Ballscrew.screw_pitch *
       (Ballscrew.angular_velocity * (0 + INR i * Ballscrew.dt) / (2 * PI))).
  split; [now apply arange_nth|]. split; [reflexivity|].
  split; [exact Hrun|].
  cbv zeta. rewrite Hrod, Harm, Hnut, Hline.
  unfold OrthogonalLinkage.point, OrthogonalLinkage.dist. cbn [xdata ydata zdata nth].
  repeat split.
  apply sqrt_of_square; [unfold Ballscrew.screw_radius; lra|].
  unfold Ballscrew.screw_x, Ballscrew.screw_y, Ballscrew.screw_offset_x.
  set (a := Ballscrew.angular_velocity * _).
  pose proof (sin2_cos2 a) as H. unfold Rsqr in H.
  set (r := Ballscrew.screw_radius).
  replace ((r * cos a + 0 - 0) * (r * cos a + 0 - 0) +
           (r * sin a - 0) * (r * sin a - 0) + _)
    with (r * r * (sin a * sin a + cos a * cos a)) by ring.
  rewrite H. ring.
Qed.

Lemma Ballscrew_drawing_connected_witness :
  (50 < Ballscrew.frames)%nat /\
  exists s' : Store,
    final (Ballscrew.update 50) (fresh (fun _ => empty_line)) = Some s' /\
    OrthogonalLinkage.dist
      (OrthogonalLinkage.point (artists s' "screw") 0)
      (OrthogonalLinkage.point (artists s' "screw") 1)
    = Ballscrew.screw_radius.
Proof.
  assert (H : (50 < Ballscrew.frames)%nat)
    by (unfold Ballscrew.frames; lia).
  split; [exact H|].
  destruct (Ballscrew_drawing_connected 50 (fresh (fun _ => empty_line)) H)
    as (s' & ti & z & _ & _ & Hrun & _ & _ & Hd & _).
  exists s'. split; [exact Hrun|exact Hd].
Defined.

(** ** Ballscrew: the two trajectory plots *)

Lemma run_frames_app (update : nat -> M unit) (l1 l2 : list nat) (s : Store) :
  run_frames update (l1 ++ l2) s
  = bind (run_frames update l1) (fun _ => run_frames update l2) s.
Proof.
  revert s. induction l1 as [|i l1 IH]; intros s; simpl.
  - reflexivity.
  - unfold bind. destruct (update i s) as [[u s1]|]; [|reflexivity].
    rewrite IH. reflexivity.
Qed.

Lemma wp_conj {A : Type} (m : M A) (P Q : A -> Store -> Prop) (s : Store) :
  wp m P s -> wp m Q s -> wp m (fun a s' => P a s' /\ Q a s') s.
Proof.
  unfold wp. destruct (m s) as [[a s']|]; [now split|contradiction].
Qed.

(** X5. After Ballscrew has run the frames 0 .. N-1 from empty lists
    (1 <= N <= 200), the screw plot holds the whole x and y histories
    and the follower plot holds the first N times against the whole z
    history; each plot's x and y data have the same length N. *)
Theorem Ballscrew_trajectory_plots_hold_history :
  forall (N : nat) (a : string -> Line),
    (1 <= N <= 200)%nat ->
    exists s' : Store,
      final (run_frames Ballscrew.update (seq 0 N)) (fresh a) = Some s' /\
      xdata (artists s' "screw_traj_plot") = buffers s' "screw_trajectory_x" /\
      ydata (artists s' "screw_traj_plot") = buffers s' "screw_trajectory_y" /\
      xdata (artists s' "follower_traj_plot") = firstn N Ballscrew.t /\
      ydata (artists s' "follower_traj_plot")
        = buffers s' "follower_trajectory_z" /\
      List.length (xdata (artists s' "screw_traj_plot")) = N /\
      List.length (ydata (artists s' "screw_traj_plot")) = N /\
      List.length (xdata (artists s' "follower_traj_plot")) = N /\
      List.length (ydata (artists s' "follower_traj_plot")) = N.
Proof.
  intros N a [H1 HN]. destruct N as [|M]; [lia|].
  assert (HM : (M < Ballscrew.frames)%nat) by (unfold Ballscrew.frames; lia).
  assert (Hpre : (0 + M <= Ballscrew.frames)%nat) by lia.
  pose proof (run_frames_extends _ _ _ _ _ _ _ _ Ballscrew_update_pushes
                M 0 (fresh a) Hpre) as Hfirst.
  destruct (wp_elim _ _ _ Hfirst) as (u & s1 & Hrun1 & Hx1 & Hy1 & Hz1).
  simpl in Hx1, Hy1, Hz1.
  pose proof (wp_conj _ _ _ _ (Ballscrew_update_pushes M s1 HM)
                (Ballscrew_update_draws M s1 HM)) as Hlast.
  destruct (wp_elim _ _ _ Hlast)
    as (u2 & s' & Hrun2 & (Hx & Hy & Hz) & _ & _ & _ & _ & Hsp & Hfp & _).
  exists s'. split.
  - unfold final. rewrite seq_S, run_frames_app. unfold bind at 1.
    rewrite Hrun1. simpl. unfold bind at 1. rewrite Hrun2. reflexivity.
  - rewrite Hsp, Hfp. cbn [xdata ydata].
    assert (Lx : List.length (buffers s' "screw_trajectory_x") = S M)
      by (rewrite Hx, Hx1, length_app, map_seq_length; simpl; lia).
    assert (Ly : List.length (buffers s' "screw_trajectory_y") = S M)
      by (rewrite Hy, Hy1, length_app, map_seq_length; simpl; lia).
    assert (Lz : List.length (buffers s' "follower_trajectory_z") = S M)
      by (rewrite Hz, Hz1, length_app, map_seq_length; simpl; lia).
    replace (M + 1)%nat with (S M) by lia.
    rewrite (firstn_all2 (buffers s' "follower_trajectory_z")) by lia.
    repeat split; try assumption.
    rewrite length_firstn. unfold Ballscrew.t.
    rewrite arange_length. unfold Ballscrew.frames. lia.
Qed.

Lemma Ballscrew_trajectory_plots_hold_history_witness :
  (1 <= 200 <= 200)%nat /\
  exists s' : Store,
    final (run_frames Ballscrew.update (seq 0 200))
          (fresh (fun _ => empty_line)) = Some s' /\
    List.length (xdata (artists s' "follower_traj_plot")) = 200%nat /\
    List.length (ydata (artists s' "follower_traj_plot")) = 200%nat.
Proof.
  assert (H : (1 <= 200 <= 200)%nat) by lia.
  split; [exact H|].
  destruct (Ballscrew_trajectory_plots_hold_history 200
              (fun _ => empty_line) H)
    as (s' & Hrun & _ & _ & _ & _ & _ & _ & Lx & Ly).
  exists s'. repeat split; assumption.
Defined.

(** ** Heights and points over the frames *)

Lemma INR_100 : INR 100 = 100.
Proof. rewrite INR_IZR_INZ. reflexivity. Qed.

Lemma INR_20 : INR 20 = 20.
Proof. rewrite INR_IZR_INZ. reflexivity. Qed.

Lemma INR_200 : INR 200 = 200.
Proof. rewrite INR_IZR_INZ. reflexivity. Qed.

Lemma INR_lt_200 (k : nat) : (k < 200)%nat -> 0 <= INR k < 200.
Proof.
  intros Hk. split; [apply pos_INR|].
  rewrite <- INR_200. now apply lt_INR.
Qed.

Lemma Ballscrew_height (k : nat) :
  Ballscrew.screw_pitch *
    (Ballscrew.angular_velocity * (0 + INR k * Ballscrew.dt) / (2 * PI))
  = Ballscrew.screw_pitch * (INR k / 200).
Proof.
  unfold Ballscrew.angular_velocity, Ballscrew.dt, Ballscrew.screw_pitch.
  pose proof PI_neq_0 as Hpi. set (x := 0 + INR k * 0.05).
  replace (2 * PI / 10 * x / (2 * PI)) with (x / 10) by (field; exact Hpi).
  unfold x. lra.
Qed.

(** X6. In Ballscrew, over the frames 0 .. N-1 (N at most 200) the
    height appended at frame k is screw_pitch * k / 200: the heights
    start at 0, increase strictly from frame to frame and stay below one
    pitch. *)
Theorem Ballscrew_heights_increase_below_pitch :
  forall (N : nat) (a : string -> Line),
    (N <= 200)%nat ->
    exists s' : Store,
      final (run_frames Ballscrew.update (seq 0 N)) (fresh a) = Some s' /\
      (forall (k : nat) (z : R),
         nth_error (buffers s' "follower_trajectory_z") k = Some z ->
         z = Ballscrew.screw_pitch * (INR k / 200) /\
         0 <= z < Ballscrew.screw_pitch) /\
      (forall (k1 k2 : nat) (z1 z2 : R),
         (k1 < k2)%nat ->
         nth_error (buffers s' "follower_trajectory_z") k1 = Some z1 ->
         nth_error (buffers s' "follower_trajectory_z") k2 = Some z2 ->
         z1 < z2).
Proof.
  intros N a HN.
  destruct (run_frames_fresh Ballscrew.update Ballscrew.frames _ _ _ _ _ _
              Ballscrew_update_pushes N a HN) as (s' & Hrun & _ & _ & Hz).
  exists s'. split; [exact Hrun|]. rewrite Hz. split.
  - intros k z Hk. apply nth_error_map_seq in Hk as [Hlt ->].
    rewrite Ballscrew_height. split; [reflexivity|].
    assert (Hb : 0 <= INR k < 200) by (apply INR_lt_200; lia).
    unfold Ballscrew.screw_pitch. lra.
  - intros k1 k2 z1 z2 Hlt H1 H2.
    apply nth_error_map_seq in H1 as [_ ->].
    apply nth_error_map_seq in H2 as [_ ->].
    rewrite !Ballscrew_height. apply lt_INR in Hlt.
    unfold Ballscrew.screw_pitch. lra.
Qed.

Lemma Ballscrew_heights_increase_below_pitch_witness :
  (200 <= 200)%nat /\
  exists s' : Store,
    final (run_frames Ballscrew.update (seq 0 200))
          (fresh (fun _ => empty_line)) = Some s' /\
    forall (k : nat) (z : R),
      nth_error (buffers s' "follower_trajectory_z") k = Some z ->
      z = Ballscrew.screw_pitch * (INR k / 200) /\
      0 <= z < Ballscrew.screw_pitch.
Proof.
  assert (H : (200 <= 200)%nat) by lia.
  split; [exact H|].
  destruct (Ballscrew_heights_increase_below_pitch 200
              (fun _ => empty_line) H) as (s' & Hrun & Hz & _).
  exists s'. split; assumption.
Defined.

Lemma CylindricalCamPlanar_turn (k : nat) :
  CylindricalCamPlanar.angular_velocity *
    (0 + INR (k + 100) * CylindricalCamPlanar.dt)
  = CylindricalCamPlanar.angular_velocity *
      (0 + INR k * CylindricalCamPlanar.dt) + 2 * INR 1 * PI.
Proof.
  rewrite plus_INR, INR_100.
  unfold CylindricalCamPlanar.angular_velocity, CylindricalCamPlanar.dt.
  simpl INR. lra.
Qed.

(** X7. In CylindricalCamPlanar one turn of the cam takes 100 frames:
    over the frames 0 .. N-1 (N at most 200) the cam point appended at
    frame k+100 is the one appended at frame k, and the follower height
    appended at frame k+100 is the height at frame k plus helix_pitch. *)
Theorem CylindricalCamPlanar_turn_every_100_frames :
  forall (N : nat) (a : string -> Line),
    (N <= 200)%nat ->
    exists s' : Store,
      final (run_frames CylindricalCamPlanar.update (seq 0 N)) (fresh a)
        = Some s' /\
      forall k : nat,
        (k + 100 < N)%nat ->
        nth_error (buffers s' "cam_trajectory_x") (k + 100)
          = nth_error (buffers s' "cam_trajectory_x") k /\
        nth_error (buffers s' "cam_trajectory_y") (k + 100)
          = nth_error (buffers s' "cam_trajectory_y") k /\
        exists z : R,
          nth_error (buffers s' "follower_trajectory_z") k = Some z /\
          nth_error (buffers s' "follower_trajectory_z") (k + 100)
            = Some (z + CylindricalCamPlanar.helix_pitch).
Proof.
  intros N a HN.
  destruct (run_frames_fresh CylindricalCamPlanar.update
              CylindricalCamPlanar.frames _ _ _ _ _ _
              CylindricalCamPlanar_update_pushes N a HN)
    as (s' & Hrun & Hx & Hy & Hz).
  exists s'. split; [exact Hrun|]. rewrite Hx, Hy, Hz.
  intros k Hk.
  rewrite !(map_seq_nth _ N (k + 100)) by lia.
  rewrite !(map_seq_nth _ N k) by lia.
  unfold CylindricalCamPlanar.cam_x, CylindricalCamPlanar.cam_y.
  rewrite CylindricalCamPlanar_turn, cos_period, sin_period.
  split; [reflexivity|]. split; [reflexivity|].
  eexists. split; [reflexivity|].
  assert (Hsome : forall x y : R, x = y -> Some x = Some y)
    by (intros x y ->; reflexivity).
  apply Hsome. unfold CylindricalCamPlanar.helix_pitch.
  pose proof PI_neq_0 as Hpi. simpl INR.
  set (x := CylindricalCamPlanar.angular_velocity * _).
  replace ((x + 2 * 1 * PI) / (2 * PI)) with (x / (2 * PI) + 1)
    by (field; exact Hpi).
  lra.
Qed.

Lemma CylindricalCamPlanar_turn_every_100_frames_witness :
  (200 <= 200)%nat /\
  exists s' : Store,
    final (run_frames CylindricalCamPlanar.update (seq 0 200))
          (fresh (fun _ => empty_line)) = Some s' /\
    nth_error (buffers s' "cam_trajectory_x") (3 + 100)
      = nth_error (buffers s' "cam_trajectory_x") 3.
Proof.
  assert (H : (200 <= 200)%nat) by lia.
  split; [exact H|].
  destruct (CylindricalCamPlanar_turn_every_100_frames 200
              (fun _ => empty_line) H) as (s' & Hrun & Hper).
  exists s'. split; [exact Hrun|].
  assert (H3 : (3 + 100 < 200)%nat) by lia.
  exact (proj1 (Hper 3%nat H3)).
Defined.

(** X8. In CylindricalCamOrthogonal, over the frames 0 .. N-1 (N at
    most 200) every follower height lies between -amplitude and
    amplitude, and every cam point lies between the circles of radius
    cam_radius - amplitude and cam_radius + amplitude. *)
Theorem CylindricalCamOrthogonal_within_amplitude :
  forall (N : nat) (a : string -> Line),
    (N <= 200)%nat ->
    exists s' : Store,
      final (run_frames CylindricalCamOrthogonal.update (seq 0 N)) (fresh a)
        = Some s' /\
      forall (k : nat) (x y z : R),
        nth_error (buffers s' "cam_trajectory_x") k = Some x ->
        nth_error (buffers s' "cam_trajectory_y") k = Some y ->
        nth_error (buffers s' "follower_trajectory_z") k = Some z ->
        - CylindricalCamOrthogonal.amplitude <= z
          <= CylindricalCamOrthogonal.amplitude /\
        (CylindricalCamOrthogonal.cam_radius - CylindricalCamOrthogonal.amplitude) *
        (CylindricalCamOrthogonal.cam_radius - CylindricalCamOrthogonal.amplitude)
          <= x * x + y * y
          <= (CylindricalCamOrthogonal.cam_radius + CylindricalCamOrthogonal.amplitude) *
             (CylindricalCamOrthogonal.cam_radius + CylindricalCamOrthogonal.amplitude).
Proof.
  intros N a HN.
  destruct (run_frames_fresh CylindricalCamOrthogonal.update
              CylindricalCamOrthogonal.frames _ _ _ _ _ _
              CylindricalCamOrthogonal_update_pushes N a HN)
    as (s' & Hrun & Hx & Hy & Hz).
  exists s'. split; [exact Hrun|]. rewrite Hx, Hy, Hz.
  intros k x y z Kx Ky Kz.
  apply nth_error_map_seq in Kx as [_ ->].
  apply nth_error_map_seq in Ky as [_ ->].
  apply nth_error_map_seq in Kz as [_ ->].
  unfold orthogonal_cam_x, orthogonal_cam_y,
    CylindricalCamOrthogonal.amplitude, CylindricalCamOrthogonal.cam_radius.
  set (w := CylindricalCamOrthogonal.angular_velocity * _).
  pose proof (SIN_bound w) as [Hlo Hhi].
  pose proof (sin2_cos2 w) as H. unfold Rsqr in H.
  replace ((2 + 1 * sin w) * cos w * ((2 + 1 * sin w) * cos w) +
           (2 + 1 * sin w) * sin w * ((2 + 1 * sin w) * sin w))
    with ((2 + sin w) * (2 + sin w) * (sin w * sin w + cos w * cos w)) by ring.
  rewrite H. split; [lra|]. nra.
Qed.

Lemma CylindricalCamOrthogonal_within_amplitude_witness :
  (200 <= 200)%nat /\
  exists s' : Store,
    final (run_frames CylindricalCamOrthogonal.update (seq 0 200))
          (fresh (fun _ => empty_line)) = Some s'.
Proof.
  assert (H : (200 <= 200)%nat) by lia.
  split; [exact H|].
  destruct (CylindricalCamOrthogonal_within_amplitude 200
              (fun _ => empty_line) H) as (s' & Hrun & _).
  exists s'. exact Hrun.
Defined.

Lemma CylindricalCamOrthogonal_turn (k : nat) :
  CylindricalCamOrthogonal.angular_velocity *
    (0 + INR (k + 20) * CylindricalCamOrthogonal.dt)
  = CylindricalCamOrthogonal.angular_velocity *
      (0 + INR k * CylindricalCamOrthogonal.dt) + 2 * INR 1 * PI.
Proof.
  rewrite plus_INR, INR_20.
  unfold CylindricalCamOrthogonal.angular_velocity,
    CylindricalCamOrthogonal.frequency, CylindricalCamOrthogonal.dt.
  simpl INR. lra.
Qed.

(** X9. In CylindricalCamOrthogonal one turn of the cam takes 20 frames:
    over the frames 0 .. N-1 (N at most 200) the cam point and the
    follower height appended at frame k+20 are those appended at
    frame k. *)
Theorem CylindricalCamOrthogonal_repeats_every_20_frames :
  forall (N : nat) (a : string -> Line),
    (N <= 200)%nat ->
    exists s' : Store,
      final (run_frames CylindricalCamOrthogonal.update (seq 0 N)) (fresh a)
        = Some s' /\
      forall k : nat,
        (k + 20 < N)%nat ->
        nth_error (buffers s' "cam_trajectory_x") (k + 20)
          = nth_error (buffers s' "cam_trajectory_x") k /\
        nth_error (buffers s' "cam_trajectory_y") (k + 20)
          = nth_error (buffers s' "cam_trajectory_y") k /\
        nth_error (buffers s' "follower_trajectory_z") (k + 20)
          = nth_error (buffers s' "follower_trajectory_z") k.
Proof.
  intros N a HN.
  destruct (run_frames_fresh CylindricalCamOrthogonal.update
              CylindricalCamOrthogonal.frames _ _ _ _ _ _
              CylindricalCamOrthogonal_update_pushes N a HN)
    as (s' & Hrun & Hx & Hy & Hz).
  exists s'. split; [exact Hrun|]. rewrite Hx, Hy, Hz.
  intros k Hk.
  rewrite !(map_seq_nth _ N (k + 20)) by lia.
  rewrite !(map_seq_nth _ N k) by lia.
  unfold orthogonal_cam_x, orthogonal_cam_y.
  rewrite CylindricalCamOrthogonal_turn, cos_period, sin_period.
  repeat split; reflexivity.
Qed.

Lemma CylindricalCamOrthogonal_repeats_every_20_frames_witness :
  (200 <= 200)%nat /\
  exists s' : Store,
    final (run_frames CylindricalCamOrthogonal.update (seq 0 200))
          (fresh (fun _ => empty_line)) = Some s' /\
    nth_error (buffers s' "follower_trajectory_z") (5 + 20)
      = nth_error (buffers s' "follower_trajectory_z") 5.
Proof.
  assert (H : (200 <= 200)%nat) by lia.
  split; [exact H|].
  destruct (CylindricalCamOrthogonal_repeats_every_20_frames 200
              (fun _ => empty_line) H) as (s' & Hrun & Hper).
  exists s'. split; [exact Hrun|].
  assert (H5 : (5 + 20 < 200)%nat) by lia.
  exact (proj2 (proj2 (Hper 5%nat H5))).
Defined.

Lemma dwell_angle (k : nat) :
  2 * PI / 10 * (0 + INR k * 0.05) = PI * (INR k / 100).
Proof. lra. Qed.

(** X10. In CylindricalCamRotTrans, over the frames 0 .. N-1 (N at most
    200) the follower height appended at frame k is 0 up to frame 100
    and helix_pitch * (k - 100) / 200 after it: positive there, and
    always below half the cam height. *)
Theorem CylindricalCamRotTrans_dwell_then_rise :
  forall (N : nat) (a : string -> Line),
    (N <= 200)%nat ->
    exists s' : Store,
      final (run_frames CylindricalCamRotTrans.update (seq 0 N)) (fresh a)
        = Some s' /\
      forall (k : nat) (z : R),
        nth_error (buffers s' "follower_trajectory_z") k = Some z ->
        ((k <= 100)%nat -> z = 0) /\
        ((100 < k)%nat ->
           z = CylindricalCamRotTrans.helix_pitch * ((INR k - 100) / 200) /\
           0 < z) /\
        z < CylindricalCamRotTrans.cam_height / 2.
Proof.
  intros N a HN.
  assert (Hupd : forall (i : nat) (s : Store),
             (i < CylindricalCamRotTrans.frames)%nat ->
             wp (CylindricalCamRotTrans.update i)
                (fun _ => pushes "cam_trajectory_x" "cam_trajectory_y"
                   "follower_trajectory_z"
                   (CylindricalCamRotTrans.cam_x
                      (CylindricalCamRotTrans.angular_velocity *
                         (0 + INR i * CylindricalCamRotTrans.dt)))
                   (CylindricalCamRotTrans.cam_y
                      (CylindricalCamRotTrans.angular_velocity *
                         (0 + INR i * CylindricalCamRotTrans.dt)))
                   ((fun j =>
                       if Rle_dec (CylindricalCamRotTrans.angular_velocity *
                                     (0 + INR j * CylindricalCamRotTrans.dt)) PI
                       then 0
                       else CylindricalCamRotTrans.helix_pitch *
                              ((CylindricalCamRotTrans.angular_velocity *
                                  (0 + INR j * CylindricalCamRotTrans.dt) - PI)
                               / (2 * PI))) i) s) s)
    by (intros i s Hi; exact (CylindricalCamRotTrans_update_pushes i s Hi)).
  destruct (run_frames_fresh CylindricalCamRotTrans.update
              CylindricalCamRotTrans.frames _ _ _ _ _ _ Hupd N a HN)
    as (s' & Hrun & _ & _ & Hz).
  exists s'. split; [exact Hrun|]. rewrite Hz.
  intros k z Hk. apply nth_error_map_seq in Hk as [Hlt ->].
  assert (Hb : 0 <= INR k < 200) by (apply INR_lt_200; lia).
  pose proof PI_RGT_0 as Hpi.
  pose proof CylindricalCamRotTrans_helix_pitch_pos as Hp.
  unfold CylindricalCamRotTrans.cam_height, CylindricalCamRotTrans.helix_turns,
    CylindricalCamRotTrans.angular_velocity, CylindricalCamRotTrans.dt.
  rewrite dwell_angle.
  assert (Hramp : CylindricalCamRotTrans.helix_pitch *
                    ((PI * (INR k / 100) - PI) / (2 * PI))
                  = CylindricalCamRotTrans.helix_pitch * ((INR k - 100) / 200))
    by (field; lra).
  destruct (Rle_dec (PI * (INR k / 100)) PI) as [Hle|Hgt].
  - assert (Hk100 : INR k <= 100) by nra.
    split; [reflexivity|]. split; [|nra].
    intros Hgt. apply lt_INR in Hgt. rewrite INR_100 in Hgt. lra.
  - apply Rnot_le_lt in Hgt. assert (Hk100 : 100 < INR k) by nra.
    rewrite Hramp. split; [|split].
    + intros Hle. apply le_INR in Hle. rewrite INR_100 in Hle. lra.
    + intros _. split; [reflexivity|]. nra.
    + nra.
Qed.

Lemma CylindricalCamRotTrans_dwell_then_rise_witness :
  (200 <= 200)%nat /\
  exists s' : Store,
    final (run_frames CylindricalCamRotTrans.update (seq 0 200))
          (fresh (fun _ => empty_line)) = Some s'.
Proof.
  assert (H : (200 <= 200)%nat) by lia.
  split; [exact H|].
  destruct (CylindricalCamRotTrans_dwell_then_rise 200
              (fun _ => empty_line) H) as (s' & Hrun & _).
  exists s'. exact Hrun.
Defined.

(** X11. In BallscrewRotTrans, over the frames 0 .. N-1 (N at most 200)
    the follower height appended at frame k is 0 up to frame 100 and
    screw_pitch * (k - 100) / 100 after it, so it stays strictly below
    screw_pitch: the branch of [update] that assigns screw_pitch is never
    taken.  After frame 100 the script's [follower_position], evaluated
    at the frame's angle, returns screw_pitch instead. *)
Theorem BallscrewRotTrans_rise_stays_below_pitch :
  forall (N : nat) (a : string -> Line),
    (N <= 200)%nat ->
    exists s' : Store,
      final (run_frames BallscrewRotTrans.update (seq 0 N)) (fresh a)
        = Some s' /\
      forall (k : nat) (tk z : R),
        nth_error BallscrewRotTrans.t k = Some tk ->
        nth_error (buffers s' "follower_trajectory_z") k = Some z ->
        ((k <= 100)%nat -> z = 0) /\
        ((100 < k)%nat ->
           z = BallscrewRotTrans.screw_pitch * ((INR k - 100) / 100) /\
           value (BallscrewRotTrans.follower_position
                    (BallscrewRotTrans.angular_velocity * tk)) s'
             = Some BallscrewRotTrans.screw_pitch) /\
        z < BallscrewRotTrans.screw_pitch.
Proof.
  intros N a HN.
  destruct (run_frames_fresh BallscrewRotTrans.update BallscrewRotTrans.frames
              _ _ _ _ _ _ BallscrewRotTrans_update_pushes N a HN)
    as (s' & Hrun & _ & _ & Hz).
  exists s'. split; [exact Hrun|]. rewrite Hz.
  intros k tk z Ht Hk. apply nth_error_map_seq in Hk as [Hlt ->].
  assert (Hk200 : (k < BallscrewRotTrans.frames)%nat)
    by (unfold BallscrewRotTrans.frames; lia).
  unfold BallscrewRotTrans.t in Ht. rewrite arange_nth in Ht by exact Hk200.
  inversion Ht; subst tk; clear Ht.
  assert (Hb : 0 <= INR k < 200) by (apply INR_lt_200; lia).
  pose proof PI_RGT_0 as Hpi.
  unfold rise, rise_time, BallscrewRotTrans.screw_pitch,
    BallscrewRotTrans.dt.
  split; [|split].
  - intros Hle. apply le_INR in Hle. rewrite INR_100 in Hle.
    apply Rmax_left. lra.
  - intros Hgt. apply lt_INR in Hgt. rewrite INR_100 in Hgt. split.
    + rewrite Rmax_right by lra. lra.
    + unfold value, BallscrewRotTrans.follower_position,
        BallscrewRotTrans.angular_velocity.
      rewrite dwell_angle.
      destruct (Rle_dec (PI * (INR k / 100)) PI) as [Hle|_];
        [nra|reflexivity].
  - apply Rmax_lub_lt; lra.
Qed.

Lemma BallscrewRotTrans_rise_stays_below_pitch_witness :
  (200 <= 200)%nat /\
  exists s' : Store,
    final (run_frames BallscrewRotTrans.update (seq 0 200))
          (fresh (fun _ => empty_line)) = Some s'.
Proof.
  assert (H : (200 <= 200)%nat) by lia.
  split; [exact H|].
  destruct (BallscrewRotTrans_rise_stays_below_pitch 200
              (fun _ => empty_line) H) as (s' & Hrun & _).
  exists s'. exact Hrun.
Defined.

(** ** OrthogonalLinkage: reach and redrawing *)

(** X12. In OrthogonalLinkage, after [update] at any frame, Linkage A
    lies in the plane z = 0, Linkage B has no extent along y, and the
    end of Linkage B stays inside the box the axes show: x within
    [-2, 2], y and z within [-1, 1]. *)
Theorem linkage_stays_in_view :
  forall (frame : R) (s : Store),
    exists (s' : Store) (ax ay az bx by' bz : R),
      final (OrthogonalLinkage.update frame) s = Some s' /\
      OrthogonalLinkage.point (artists s' "line_A") 1 = (ax, ay, az) /\
      OrthogonalLinkage.point (artists s' "line_B") 1 = (bx, by', bz) /\
      az = 0 /\ by' = ay /\
      -2 <= bx <= 2 /\ -1 <= by' <= 1 /\ -1 <= bz <= 1.
Proof.
  intros frame s.
  pose proof (COS_bound (OrthogonalLinkage.radians frame)) as [Ha1 Ha2].
  pose proof (SIN_bound (OrthogonalLinkage.radians frame)) as [Ha3 Ha4].
  pose proof (COS_bound (OrthogonalLinkage.radians (frame * 1.5))) as [Hb1 Hb2].
  pose proof (SIN_bound (OrthogonalLinkage.radians (frame * 1.5))) as [Hb3 Hb4].
  do 7 eexists. split.
  - unfold final, OrthogonalLinkage.update, bind, set_data, set_3d_properties.
    simpl. reflexivity.
  - unfold OrthogonalLinkage.point. simpl.
    split; [reflexivity|]. split; [reflexivity|].
    unfold OrthogonalLinkage.linkage_length_A,
      OrthogonalLinkage.linkage_length_B.
    repeat split; lra.
Qed.

(** X13. In OrthogonalLinkage the drawing has no memory: running
    [update] for a frame after [init], or after [update] for any other
    frame, leaves every artist and every list exactly as running it for
    that frame alone. *)
Theorem linkage_redraw_forgets_history :
  forall (f1 f2 : R) (s : Store),
    exists s2 s12 s02 : Store,
      final (OrthogonalLinkage.update f2) s = Some s2 /\
      final (OrthogonalLinkage.update f1 ;;; OrthogonalLinkage.update f2) s
        = Some s12 /\
      final (OrthogonalLinkage.init ;;; OrthogonalLinkage.update f2) s
        = Some s02 /\
      (forall n : string,
          artists s12 n = artists s2 n /\ artists s02 n = artists s2 n /\
          buffers s12 n = buffers s n /\ buffers s02 n = buffers s n /\
          buffers s2 n = buffers s n).
Proof.
  intros f1 f2 s. do 3 eexists.
  split; [|split; [|split]].
  - unfold final, OrthogonalLinkage.update, bind, set_data, set_3d_properties.
    simpl. reflexivity.
  - unfold final, OrthogonalLinkage.update, bind, set_data, set_3d_properties.
    simpl. reflexivity.
  - unfold final, OrthogonalLinkage.update, OrthogonalLinkage.init,
      bind, set_data, set_3d_properties.
    simpl. reflexivity.
  - intros n. simpl. unfold upd.
    destruct (String.eqb "line_B" n), (String.eqb "line_A" n);
      repeat split; reflexivity.
Qed.

(** ** BallscrewFlexLink: the swing and the slide *)

Lemma BallscrewFlexLink_update_draws (frame : R) (s : Store) :
  let angle := BallscrewFlexLink.radians (frame * 90 / 100) in
  let fy := if Rge_dec frame 100 then 4 * ((frame - 100) / 100)
            else BallscrewFlexLink.pivot_y + sin angle in
  let fz := if Rge_dec frame 100 then 0 else cos angle in
  wp (BallscrewFlexLink.update frame)
     (fun _ s' =>
        artists s' "follower_line"
          = mkLine [BallscrewFlexLink.follower_x; BallscrewFlexLink.follower_x]
                   [fy; fy] [fz; fz] /\
        artists s' "linkage2_line"
          = mkLine [BallscrewFlexLink.pivot_x; BallscrewFlexLink.follower_x]
                   [BallscrewFlexLink.pivot_y; fy] [0; fz] /\
        artists s' "linkage1_line"
          = mkLine (xdata (artists s "linkage1_line"))
                   [2; BallscrewFlexLink.pivot_y]
                   (zdata (artists s "linkage1_line")) /\
        only_touches ["follower_line"; "linkage1_line"; "linkage2_line"]%string
                     [] s s') s.
Proof.
  intros angle fy fz. unfold BallscrewFlexLink.update.
  do 10 wp_exact_step. subst fy fz.
  destruct (Rge_dec frame 100) as [Hge|Hlt].
  - repeat wp_exact_step. unfold only_touches.
    repeat match goal with |- _ /\ _ => split end.
    all: try (intros n Hn; split_not_in Hn).
    all: store_norm; reflexivity.
  - wp_exact_step. unfold only_touches.
    repeat match goal with |- _ /\ _ => split end.
    all: try (intros n Hn; split_not_in Hn).
    all: store_norm; reflexivity.
Qed.

(** X14. In BallscrewFlexLink, after [update] at any frame the second
    link runs from the pivot (pivot_x, pivot_y, 0) to the follower, the
    follower is drawn as a single point at x = follower_x, and nothing
    but the follower and the two links is touched; started from the
    artists as first plotted, the first link is left exactly as
    plotted. *)
Theorem flex_link_stays_attached :
  forall (frame : R) (s : Store),
    exists s' : Store,
      final (BallscrewFlexLink.update frame) s = Some s' /\
      let follower := artists s' "follower_line" in
      let link := artists s' "linkage2_line" in
      OrthogonalLinkage.point link 0
        = (BallscrewFlexLink.pivot_x, BallscrewFlexLink.pivot_y, 0) /\
      OrthogonalLinkage.point link 1 = OrthogonalLinkage.point follower 0 /\
      OrthogonalLinkage.point follower 1 = OrthogonalLinkage.point follower 0 /\
      nth 0 (xdata follower) 0 = BallscrewFlexLink.follower_x /\
      only_touches ["follower_line"; "linkage1_line"; "linkage2_line"]%string
                   [] s s' /\
      (s = BallscrewFlexLink.initial ->
       artists s' "linkage1_line"
         = artists BallscrewFlexLink.initial "linkage1_line").
Proof.
  intros frame s.
  destruct (wp_final _ _ _ (BallscrewFlexLink_update_draws frame s))
    as (_ & s' & Hrun & Hf & Hl2 & Hl1 & Hframe).
  exists s'. split; [exact Hrun|]. cbv zeta.
  rewrite Hf, Hl2, Hl1. unfold OrthogonalLinkage.point.
  cbn [xdata ydata zdata nth].
  repeat split; try apply Hframe.
  intros ->. reflexivity.
Qed.

(** X15. In BallscrewFlexLink, at a frame below 100 the follower is on
    the unit circle around the pivot's height in the y-z plane, and the
    second link has the same length at every such frame,
    sqrt (1.5^2 + 1). *)
Theorem flex_link_swing_keeps_length :
  forall (frame : R) (s : Store),
    frame < 100 ->
    exists (s' : Store) (x y z : R),
      final (BallscrewFlexLink.update frame) s = Some s' /\
      OrthogonalLinkage.point (artists s' "follower_line") 0 = (x, y, z) /\
      (y - BallscrewFlexLink.pivot_y) * (y - BallscrewFlexLink.pivot_y) + z * z
        = 1 /\
      OrthogonalLinkage.dist
        (OrthogonalLinkage.point (artists s' "linkage2_line") 0)
        (OrthogonalLinkage.point (artists s' "linkage2_line") 1)
      = sqrt (1.5 * 1.5 + 1).
Proof.
  intros frame s Hlt.
  destruct (wp_final _ _ _ (BallscrewFlexLink_update_draws frame s))
    as (_ & s' & Hrun & Hf & Hl2 & _).
  destruct (Rge_dec frame 100) as [Hge|_]; [lra|].
  set (a := BallscrewFlexLink.radians (frame * 90 / 100)) in *.
  exists s', BallscrewFlexLink.follower_x,
    (BallscrewFlexLink.pivot_y + sin a), (cos a).
  split; [exact Hrun|]. rewrite Hf, Hl2.
  unfold OrthogonalLinkage.point, OrthogonalLinkage.dist.
  cbn [xdata ydata zdata nth].
  pose proof (sin2_cos2 a) as H. unfold Rsqr in H.
  split; [reflexivity|]. split.
  - replace (BallscrewFlexLink.pivot_y + sin a - BallscrewFlexLink.pivot_y)
      with (sin a) by ring. exact H.
  - f_equal.
    unfold BallscrewFlexLink.follower_x, BallscrewFlexLink.pivot_x.
    replace (BallscrewFlexLink.pivot_y + sin a - BallscrewFlexLink.pivot_y)
      with (sin a) by ring.
    replace ((cos a - 0) * (cos a - 0)) with (cos a * cos a) by ring.
    lra.
Qed.

Lemma flex_link_swing_keeps_length_witness :
  0 < 100 /\
  exists s' : Store,
    final (BallscrewFlexLink.update 0) BallscrewFlexLink.initial = Some s' /\
    OrthogonalLinkage.dist
      (OrthogonalLinkage.point (artists s' "linkage2_line") 0)
      (OrthogonalLinkage.point (artists s' "linkage2_line") 1)
    = sqrt (1.5 * 1.5 + 1).
Proof.
  assert (H : 0 < 100) by lra.
  split; [exact H|].
  destruct (flex_link_swing_keeps_length 0 BallscrewFlexLink.initial H)
    as (s' & x & y & z & Hrun & _ & _ & Hd).
  exists s'. split; [exact Hrun|exact Hd].
Defined.

(** X16. In BallscrewFlexLink, at a frame from 100 on (below 200) the
    values of the swing are overwritten: the follower lies in the plane
    z = 0 at height 4 * (frame - 100) / 100, which is at least 0 and
    below 4, and the second link reaches to it with length
    sqrt (1.5^2 + (height - pivot_y)^2), so the link changes length as
    the follower slides. *)
Theorem flex_link_slide :
  forall (frame : R) (s : Store),
    100 <= frame < 200 ->
    exists (s' : Store) (h : R),
      final (BallscrewFlexLink.update frame) s = Some s' /\
      h = 4 * ((frame - 100) / 100) /\ 0 <= h < 4 /\
      OrthogonalLinkage.point (artists s' "follower_line") 0
        = (BallscrewFlexLink.follower_x, h, 0) /\
      OrthogonalLinkage.dist
        (OrthogonalLinkage.point (artists s' "linkage2_line") 0)
        (OrthogonalLinkage.point (artists s' "linkage2_line") 1)
      = sqrt (1.5 * 1.5 +
              (h - BallscrewFlexLink.pivot_y) * (h - BallscrewFlexLink.pivot_y)).
Proof.
  intros frame s [Hlo Hhi].
  destruct (wp_final _ _ _ (BallscrewFlexLink_update_draws frame s))
    as (_ & s' & Hrun & Hf & Hl2 & _).
  destruct (Rge_dec frame 100) as [_|Hn]; [|lra].
  exists s', (4 * ((frame - 100) / 100)).
  split; [exact Hrun|]. split; [reflexivity|]. split; [lra|].
  rewrite Hf, Hl2.
  unfold OrthogonalLinkage.point, OrthogonalLinkage.dist.
  cbn [xdata ydata zdata nth].
  split; [reflexivity|]. f_equal.
  unfold BallscrewFlexLink.follower_x, BallscrewFlexLink.pivot_x. lra.
Qed.

Lemma flex_link_slide_witness :
  100 <= 150 < 200 /\
  exists s' : Store,
    final (BallscrewFlexLink.update 150) BallscrewFlexLink.initial = Some s' /\
    OrthogonalLinkage.point (artists s' "follower_line") 0
      = (BallscrewFlexLink.follower_x, 2, 0).
Proof.
  assert (H : 100 <= 150 < 200) by lra.
  split; [exact H|].
  destruct (flex_link_slide 150 BallscrewFlexLink.initial H)
    as (s' & h & Hrun & Hh & _ & Hp & _).
  exists s'. split; [exact Hrun|].
  rewrite Hp, Hh. do 2 f_equal. lra.
Defined.

(** ** Sampled curves: the drawn helices and the follower cylinder *)

Lemma linspace_nth (start stop : R) (num k : nat) :
  (k < num)%nat ->
  nth_error (linspace start stop num) k
  = Some (start + INR k * ((stop - start) / INR (num - 1))).
Proof.
  intros Hk. unfold linspace.
  rewrite nth_error_map, nth_error_seq.
  apply Nat.ltb_lt in Hk. now rewrite Hk.
Qed.

Lemma linspace_length (start stop : R) (num : nat) :
  List.length (linspace start stop num) = num.
Proof. unfold linspace. now rewrite length_map, length_seq. Qed.

Lemma INR_99 : INR (100 - 1) = 99.
Proof. rewrite INR_IZR_INZ. reflexivity. Qed.

Lemma INR_999 : INR (1000 - 1) = 999.
Proof. rewrite INR_IZR_INZ. reflexivity. Qed.

Lemma INR_below (k n : nat) (r : R) : INR n = r -> (k <= n)%nat -> 0 <= INR k <= r.
Proof.
  intros <- Hk. split; [apply pos_INR|now apply le_INR].
Qed.

(** X17. [create_cylinder] builds three 100 x 100 grids.  Entry (j, k)
    is a point on the cylinder of the given radius around the vertical
    line through (x, y), at height j * height / 99: the heights run from
    0 to [height] whatever the argument [z] is. *)
Theorem create_cylinder_surface :
  forall (x y z radius height : R) (j k : nat),
    (j < 100)%nat -> (k < 100)%nat ->
    exists px py pz : R,
      entry (fst (fst (Ballscrew.create_cylinder x y z radius height))) j k
        = Some px /\
      entry (snd (fst (Ballscrew.create_cylinder x y z radius height))) j k
        = Some py /\
      entry (snd (Ballscrew.create_cylinder x y z radius height)) j k
        = Some pz /\
      (px - x) * (px - x) + (py - y) * (py - y) = radius * radius /\
      pz = INR j * (height / 99) /\
      (0 <= height -> 0 <= pz <= height).
Proof.
  intros x y z radius height j k Hj Hk.
  cbv beta iota zeta delta [Ballscrew.create_cylinder meshgrid fst snd].
  unfold entry.
  rewrite !nth_error_map, !(linspace_nth _ _ 100 j) by exact Hj.
  cbn [option_map].
  rewrite !nth_error_map, !(linspace_nth _ _ 100 k) by exact Hk.
  cbn [option_map]. rewrite INR_99.
  do 3 eexists. do 3 (split; [reflexivity|]).
  set (th := 0 + INR k * ((2 * PI - 0) / 99)).
  pose proof (sin2_cos2 th) as H. unfold Rsqr in H.
  split; [|split].
  - replace ((radius * cos th + x - x) * (radius * cos th + x - x) +
             (radius * sin th + y - y) * (radius * sin th + y - y))
      with (radius * radius * (sin th * sin th + cos th * cos th)) by ring.
    rewrite H. ring.
  - lra.
  - intros Hh.
    assert (Hb : 0 <= INR j <= 99)
      by (apply (INR_below j (100 - 1)); [exact INR_99|lia]).
    split; [|nra].
    assert (0 <= INR j * (height / 99)); [|lra].
    apply Rmult_le_pos; lra.
Qed.

Lemma create_cylinder_surface_witness :
  (99 < 100)%nat /\ (0 < 100)%nat /\
  exists pz : R,
    entry (snd (Ballscrew.create_cylinder 2.5 0 7 0.2 1)) 99 0 = Some pz /\
    pz = INR 99 * (1 / 99).
Proof.
  assert (Hj : (99 < 100)%nat) by lia.
  assert (Hk : (0 < 100)%nat) by lia.
  split; [exact Hj|]. split; [exact Hk|].
  destruct (create_cylinder_surface 2.5 0 7 0.2 1 99 0 Hj Hk)
    as (px & py & pz & _ & _ & Hz & _ & Hpz & _).
  exists pz. split; assumption.
Defined.

(** X18. The helix drawn in Ballscrew has 1000 samples.  Each lies on
    the circle of radius screw_radius; its height is the follower
    position at the sample's angle, screw_height * k / 999 for sample k,
    so the helix rises from 0 to exactly screw_height. *)
Theorem Ballscrew_helix_profile :
  forall (k : nat) (s : Store),
    (k < 1000)%nat ->
    exists th x y z : R,
      nth_error Ballscrew.theta k = Some th /\
      nth_error Ballscrew.screw_profile_x k = Some x /\
      nth_error Ballscrew.screw_profile_y k = Some y /\
      nth_error Ballscrew.screw_profile_z k = Some z /\
      x * x + y * y = Ballscrew.screw_radius * Ballscrew.screw_radius /\
      value (Ballscrew.follower_position th) s = Some z /\
      z = Ballscrew.screw_height * (INR k / 999) /\
      0 <= z <= Ballscrew.screw_height.
Proof.
  intros k s Hk.
  unfold Ballscrew.screw_profile_x, Ballscrew.screw_profile_y,
    Ballscrew.screw_profile_z, Ballscrew.theta.
  rewrite !nth_error_map, linspace_nth by exact Hk.
  cbn [option_map]. rewrite INR_999.
  do 4 eexists. do 4 (split; [reflexivity|]).
  assert (Hb : 0 <= INR k <= 999)
    by (apply (INR_below k (1000 - 1)); [exact INR_999|lia]).
  pose proof PI_neq_0 as Hpi.
  assert (Hz : Ballscrew.screw_pitch *
                 ((0 + INR k * ((2 * PI * Ballscrew.screw_turns - 0) / 999))
                  / (2 * PI))
               = Ballscrew.screw_height * (INR k / 999)).
  { unfold Ballscrew.screw_height. field. exact Hpi. }
  split; [apply circle_point|]. split; [reflexivity|].
  rewrite Hz. split; [reflexivity|].
  unfold Ballscrew.screw_height, Ballscrew.screw_turns, Ballscrew.screw_pitch.
  lra.
Qed.

Lemma Ballscrew_helix_profile_witness :
  (999 < 1000)%nat /\
  exists z : R,
    nth_error Ballscrew.screw_profile_z 999 = Some z /\
    z = Ballscrew.screw_height * (INR 999 / 999).
Proof.
  assert (H : (999 < 1000)%nat) by lia.
  split; [exact H|].
  destruct (Ballscrew_helix_profile 999 (fresh (fun _ => empty_line)) H)
    as (th & x & y & z & _ & _ & _ & Hz & _ & _ & Hzv & _).
  exists z. split; assumption.
Defined.

(** X19. The groove drawn in CylindricalCamRotTrans (built with
    [np.where]) has, at each of its 1000 samples, the height that
    [follower_position] returns at the sample's angle; the heights lie
    between 0 and half the cam height, which the last sample reaches. *)
Theorem CylindricalCamRotTrans_groove_follows_follower :
  forall (k : nat) (s : Store),
    (k < 1000)%nat ->
    exists th z : R,
      nth_error CylindricalCamRotTrans.theta k = Some th /\
      nth_error CylindricalCamRotTrans.cam_profile_z k = Some z /\
      value (CylindricalCamRotTrans.follower_position th) s = Some z /\
      0 <= z <= CylindricalCamRotTrans.cam_height / 2 /\
      (k = 999%nat -> z = CylindricalCamRotTrans.cam_height / 2).
Proof.
  intros k s Hk.
  unfold CylindricalCamRotTrans.cam_profile_z, CylindricalCamRotTrans.theta.
  rewrite !nth_error_map, linspace_nth by exact Hk.
  cbn [option_map]. rewrite INR_999.
  do 2 eexists. do 2 (split; [reflexivity|]).
  assert (Hb : 0 <= INR k <= 999)
    by (apply (INR_below k (1000 - 1)); [exact INR_999|lia]).
  pose proof PI_RGT_0 as Hpi.
  pose proof CylindricalCamRotTrans_helix_pitch_pos as Hp.
  unfold CylindricalCamRotTrans.cam_height, CylindricalCamRotTrans.helix_turns.
  set (th := 0 + INR k * ((2 * PI * 1 - 0) / 999)).
  assert (Hth : th = 2 * PI * (INR k / 999)) by (unfold th; lra).
  assert (Hramp : CylindricalCamRotTrans.helix_pitch * ((th - PI) / (2 * PI))
                  = CylindricalCamRotTrans.helix_pitch * (INR k / 999 - 1 / 2))
    by (rewrite Hth; field; lra).
  split.
  - unfold value, CylindricalCamRotTrans.follower_position.
    destruct (Rle_dec th PI); reflexivity.
  - destruct (Rle_dec th PI) as [Hle|Hgt].
    + split; [lra|]. intros ->. exfalso.
      rewrite Hth in Hle.
      replace (INR 999) with 999 in Hle
        by (symmetry; rewrite INR_IZR_INZ; reflexivity).
      lra.
    + apply Rnot_le_lt in Hgt. rewrite Hramp. rewrite Hth in Hgt.
      assert (Hhalf : 1 / 2 < INR k / 999) by nra.
      split; [nra|].
      intros ->.
      replace (INR 999) with 999
        by (symmetry; rewrite INR_IZR_INZ; reflexivity).
      lra.
Qed.

Lemma CylindricalCamRotTrans_groove_follows_follower_witness :
  (999 < 1000)%nat /\
  exists z : R,
    nth_error CylindricalCamRotTrans.cam_profile_z 999 = Some z /\
    z = CylindricalCamRotTrans.cam_height / 2.
Proof.
  assert (H : (999 < 1000)%nat) by lia.
  split; [exact H|].
  destruct (CylindricalCamRotTrans_groove_follows_follower 999
              (fresh (fun _ => empty_line)) H)
    as (th & z & _ & Hz & _ & _ & Hlast).
  exists z. split; [exact Hz|]. now apply Hlast.
Defined.
